(** * Surveying the Deep: figure scripts

    A shallow embedding of the two figure scripts of the repository,
    [techniques.py] (stacked bar chart of publications per year and
    technique) and [heatmap.py] (log-density heatmap of image origins),
    together with the properties their specification states.

    Conventions of the embedding.
    - A pandas frame is a list of rows; a frame grouped by year is a list of
      (year, sums) pairs kept in ascending year order, as [groupby] returns it.
    - Integer columns hold int64 values, as integers ([Z]) whose sums wrap
      around.
    - Numbers produced by true division are binary64 floats: rationals ([Q],
      kept in lowest terms) rounded to 53 bits after every operation, extended
      with the IEEE special values that numpy returns for a zero denominator.
    - Coordinates are exact rationals; the values of the log grid are reals.
    - A Python exception is the [Raise] branch of [result]. *)

From Stdlib Require Import List ZArith QArith Qreduction Qminmax Qround Qabs.
From Stdlib Require Import Qpower String Bool Lia.
From Stdlib Require Import Sorted Permutation Reals Lqa.
Import ListNotations.

(** ** Exceptions and results *)

Inductive exn : Type :=
| ValueError (msg : string)
| TypeError (msg : string)
| ZeroDivisionError (msg : string).

Inductive result (A : Type) : Type :=
| Ok (a : A)
| Raise (e : exn).

Arguments Ok {A} a.
Arguments Raise {A} e.

Definition bind {A B : Type} (m : result A) (k : A -> result B) : result B :=
  match m with
  | Ok a => k a
  | Raise e => Raise e
  end.

Notation "x <- m ;; k" := (bind m (fun x => k))
  (at level 61, m at next level, right associativity).

(** ** 64-bit integers

    pandas holds an integer column as int64 and adds without an overflow
    check: a sum is reduced modulo 2^64 into the range of int64. *)

Definition wrap (z : Z) : Z :=
  ((z + 2 ^ 63) mod 2 ^ 64 - 2 ^ 63)%Z.

Definition wadd (a b : Z) : Z := wrap (a + b).

(** ** binary64

    A float is the rational it stands for. [rnd] rounds a rational to the
    nearest number with a mantissa of 53 bits, ties to the even mantissa, as
    every operation of binary64 does on its exact result. The exponent is not
    bounded: the quotients of int64 values and their multiples of 100, which
    are all that the scripts compute, are far from overflow and underflow. *)

(** The integer nearest to [x], the even one of two at equal distance. *)
Definition round_half_even (x : Q) : Z :=
  let f := Qfloor x in
  match (x - inject_Z f ?= 1 # 2)%Q with
  | Lt => f
  | Gt => (f + 1)%Z
  | Eq => if Z.even f then f else (f + 1)%Z
  end.

(** The exponent [k] with [2 ^ k <= q < 2 ^ (k + 1)], for positive [q]. *)
Definition ilog2 (q : Q) : Z :=
  let k := (Z.log2 (Qnum q) - Z.log2 (Z.pos (Qden q)))%Z in
  if Qle_bool (2 ^ k) q then k else (k - 1)%Z.

Definition rnd (q : Q) : Q :=
  if Qeq_bool q 0 then 0
  else
    let e := (ilog2 (Qabs q) - 52)%Z in
    Qred (inject_Z (round_half_even (q / 2 ^ e)) * 2 ^ e).

(** The unit roundoff of binary64, 2^-53. *)
Definition u53 : Q := 1 # 9007199254740992.

(** [x] is [y] up to the relative error [k]. *)
Definition within (k x y : Q) : Prop := Qabs (x - y) <= k * Qabs y.

(** An int64 value as a float. *)
Definition float_of_int (z : Z) : Q := rnd (inject_Z z).

(** ** Numbers printed by numpy

    [true_divide] is the [/] of two numpy integer scalars: both are made
    floats and divided; for a zero denominator the result is [nan] (0/0) or a
    signed infinity, with a warning and no exception. *)

Inductive float64 : Type :=
| nan
| inf (negative : bool)
| fin (q : Q).

Definition true_divide (a b : Z) : float64 :=
  if (b =? 0)%Z then
    if (a =? 0)%Z then nan else inf (a <? 0)%Z
  else fin (rnd (float_of_int a / float_of_int b)).

Definition times (x : float64) (k : Z) : float64 :=
  match x with
  | nan => nan
  | inf s => if (k =? 0)%Z then nan else inf (xorb s (k <? 0)%Z)
  | fin q => fin (rnd (q * float_of_int k))
  end.

(** * techniques.py *)

Module Techniques.

Local Open Scope Z_scope.

(** One row of the input CSV, restricted to the four columns that
    [format_df] selects. *)
Record publication : Type := {
  Year : Z;
  Image_Processing : Z;
  Machine_Learning : Z;
  Deep_Learning : Z
}.

(** The three renamed columns of the grouped frame. *)
Record techs : Type := {
  image_processing : Z;
  machine_learning : Z;
  deep_learning : Z
}.

Definition techs_add (a b : techs) : techs :=
  {| image_processing := wadd (image_processing a) (image_processing b);
     machine_learning := wadd (machine_learning a) (machine_learning b);
     deep_learning := wadd (deep_learning a) (deep_learning b) |}.

(** A frame indexed by year. *)
Definition frame : Type := list (Z * techs).

(** [groupby('Year').sum()]: each row is added to the group of its year; the
    groups are kept in ascending order of the key. *)
Fixpoint group_add (y : Z) (v : techs) (g : frame) : frame :=
  match g with
  | [] => [(y, v)]
  | (y', v') :: g' =>
      if y <? y' then (y, v) :: g
      else if y =? y' then (y', techs_add v' v) :: g'
      else (y', v') :: group_add y v g'
  end.

Definition groupby_sum (rows : list (Z * techs)) : frame :=
  fold_left (fun g r => group_add (fst r) (snd r) g) rows [].

Definition select_rename (p : publication) : Z * techs :=
  (Year p,
   {| image_processing := Image_Processing p;
      machine_learning := Machine_Learning p;
      deep_learning := Deep_Learning p |}).

Definition format_df (df : list publication) : frame :=
  let df_techs := map select_rename df in
  groupby_sum df_techs.

(** [df[c].sum()] and [df.sum().sum()]. *)
Definition column_sum (c : techs -> Z) (df : frame) : Z :=
  fold_right wadd 0 (map (fun r => c (snd r)) df).

Definition frame_sum (df : frame) : Z :=
  wadd (wadd (column_sum image_processing df)
             (column_sum machine_learning df))
       (column_sum deep_learning df).

(** Command-line arguments of the script. *)
Record args : Type := {
  output : string;
  after_year_only : option Z;
  dpi : Z;
  fig_size : Z * Z;
  filename : string;
  format : string;
  legend_title : string;
  no_print_stats : bool;
  no_show_legend : bool;
  title : option string;
  xlabel : string;
  ylabel : string
}.

(** What [generate_stacked_barchart] draws and saves: one stacked bar per row
    of the frame it is given. *)
Record figure : Type := {
  bars : frame;
  figsize : Z * Z;
  fig_xlabel : string;
  fig_ylabel : string;
  plot_legend : bool;
  fig_legend : list string * string;
  fig_title : option string;
  fig_file : string;
  fig_dpi : Z
}.

(** [df.plot] refuses a frame without rows: an input without publications
    is read with columns of Python objects, and the grouped frame has no
    numeric data. *)
Definition generate_stacked_barchart (df : frame) (a : args) : result figure :=
  let show_legend := negb (no_show_legend a) in
  match df with
  | [] => Raise (TypeError "no numeric data to plot")
  | _ :: _ =>
      Ok {| bars := df;
            figsize := fig_size a;
            fig_xlabel := xlabel a;
            fig_ylabel := ylabel a;
            plot_legend := show_legend;
            fig_legend :=
              (["Image Processing"; "Machine Learning"; "Deep Learning"]%string,
               legend_title a);
            fig_title := title a;
            fig_file :=
              (output a ++ "/" ++ filename a ++ "." ++ format a)%string;
            fig_dpi := dpi a |}
  end.

(** What the process writes: the printed lines and, when an exception is
    not caught, its traceback, which ends the output. *)
Inductive line : Type :=
| StatsAfter (y : Z)
| Stat (label : string) (value : float64)
| Uncaught (e : exn).

(** [df[df.index >= after_year_only]] *)
Definition index_ge (y : Z) (df : frame) : frame :=
  filter (fun r => y <=? fst r) df.

(** The sums of a frame that has rows are numpy integers, whose division by
    zero gives [nan] or an infinity; the sums of a frame without rows are
    Python integers, whose division by zero raises. *)
Definition print_stats (df : frame) (after_year_only : option Z) : list line :=
  let python_sums := match df with [] => true | _ :: _ => false end in
  let header :=
    match after_year_only with
    | Some y => [StatsAfter y]
    | None => []
    end in
  let df :=
    match after_year_only with
    | Some y => index_ge y df
    | None => df
    end in
  if python_sums then
    header ++ [Uncaught (ZeroDivisionError "division by zero")]
  else
  let percent_ip :=
    times (true_divide (column_sum image_processing df) (frame_sum df)) 100 in
  let percent_ml :=
    times (true_divide (column_sum machine_learning df) (frame_sum df)) 100 in
  let percent_dl :=
    times (true_divide (column_sum deep_learning df) (frame_sum df)) 100 in
  header ++
  [Stat "Percentage of papers that used Image Processing:" percent_ip;
   Stat "Percentage of papers that used Machine Learning:" percent_ml;
   Stat "Percentage of papers that used Deep Learning:" percent_dl].

(** One run of the script that reaches its end: the saved figure and the
    printed lines. *)
Record run : Type := {
  chart : figure;
  stdout : list line
}.

Definition main (csv : list publication) (a : args) : result run :=
  let df := format_df csv in
  fig <- generate_stacked_barchart df a ;;
  Ok {| chart := fig;
        stdout :=
          if negb (no_print_stats a) then print_stats df (after_year_only a)
          else [] |}.

End Techniques.

(** * heatmap.py *)

Module Heatmap.

Local Open Scope Q_scope.

(** One row of the input CSV. *)
Record lat_long : Type := {
  Latitude_rounded : Q;
  Longitude_rounded : Q
}.

(** A shapely point, (x, y) = (longitude, latitude). *)
Definition Point : Type := (Q * Q)%type.

(** The geometry column that [pandas_to_geopandas] adds. *)
Definition pandas_to_geopandas (df : list lat_long) : list Point :=
  map (fun r => (Longitude_rounded r, Latitude_rounded r)) df.

(** ** numpy.histogram2d, called without a [range] *)

(** [_get_outer_edges] with [range=None]: minimum and maximum of the data
    (0 and 1 for no data), widened by one half on each side when they
    coincide. *)
Definition get_outer_edges (a : list Q) : Q * Q :=
  let '(first_edge, last_edge) :=
    match a with
    | [] => (0, 1)
    | v :: vs => (fold_left Qmin vs v, fold_left Qmax vs v)
    end in
  if Qeq_bool first_edge last_edge
  then (first_edge - (1 # 2), last_edge + (1 # 2))
  else (first_edge, last_edge).

(** [np.linspace(start, stop, num)] for [num >= 2]: [num - 1] equal steps
    from [start], the last point set to [stop] itself. *)
Definition linspace (start stop : Q) (num : nat) : list Q :=
  let div := (num - 1)%nat in
  let step := (stop - start) / inject_Z (Z.of_nat div) in
  map (fun k => inject_Z (Z.of_nat k) * step + start) (seq 0 div) ++ [stop].

(** [np.searchsorted(edges, v, side='right')] on ascending [edges]: the
    index of the first edge greater than [v]. *)
Fixpoint searchsorted_right (edges : list Q) (v : Q) : nat :=
  match edges with
  | [] => 0
  | e :: es => if Qle_bool e v then S (searchsorted_right es v) else 0
  end.

(** Bin number of a sample along one axis: 0 is the outlier bin below the
    first edge, [List.length edges] the outlier bin above the last edge; a sample
    on the last edge is moved into the last proper bin. *)
Definition bin_number (edges : list Q) (v : Q) : nat :=
  let i := searchsorted_right edges v in
  if Qeq_bool v (last edges 0) then (i - 1)%nat else i.

(** [np.ravel_multi_index((i, j), (_, ncol))] *)
Definition ravel_multi_index (i j ncol : nat) : nat := (i * ncol + j)%nat.

(** A grid of raw counts, one list per row. *)
Definition counts : Type := list (list nat).

(** [histogramdd] in two dimensions: the flat indices of all samples are
    counted ([np.bincount]) in a grid with one outlier bin at each end of each
    axis, and the outlier rows and columns are cut off ([hist[1:-1, 1:-1]]). *)
Definition histogramdd (sample : list (Q * Q)) (edges0 edges1 : list Q) : counts :=
  let nbin0 := (List.length edges0 + 1)%nat in
  let nbin1 := (List.length edges1 + 1)%nat in
  let xy :=
    map (fun s => ravel_multi_index (bin_number edges0 (fst s))
                                    (bin_number edges1 (snd s)) nbin1) sample in
  map (fun i =>
         map (fun j => count_occ Nat.eq_dec xy (ravel_multi_index i j nbin1))
             (seq 1 (nbin1 - 2)))
      (seq 1 (nbin0 - 2)).

Definition histogram2d (x y : list Q) (bins : Z * Z)
  : result (counts * list Q * list Q) :=
  if negb (List.length x =? List.length y)%nat then
    Raise (ValueError "x and y must have the same length.")
  else if (fst bins <? 1)%Z then
    Raise (ValueError "`bins[0]` must be positive, when an integer")
  else if (snd bins <? 1)%Z then
    Raise (ValueError "`bins[1]` must be positive, when an integer")
  else
    let '(smin0, smax0) := get_outer_edges x in
    let '(smin1, smax1) := get_outer_edges y in
    let edges0 := linspace smin0 smax0 (Z.to_nat (fst bins) + 1) in
    let edges1 := linspace smin1 smax1 (Z.to_nat (snd bins) + 1) in
    Ok (histogramdd (combine x y) edges0 edges1, edges0, edges1).

(** ** The log transform *)

(** Values of the log grid: binary64 numbers, idealised as reals, and the
    negative infinity that [np.log] returns at 0. *)
Inductive logval : Type :=
| neg_inf
| real (r : R).

Definition np_log (c : nat) : logval :=
  match c with
  | O => neg_inf
  | S _ => real (ln (INR c))
  end.

Definition isneginf (v : logval) : bool :=
  match v with
  | neg_inf => true
  | real _ => false
  end.

Definition loggrid : Type := list (list logval).

(** [a[mask] = 0] *)
Definition assign_where (mask : logval -> bool) (a : loggrid) : loggrid :=
  map (map (fun v => if mask v then real 0%R else v)) a.

(** Command-line arguments that [generate_heatmap] reads. *)
Record args : Type := {
  bins : Z * Z;
  smoothing : Q;
  mode : string
}.

(** The bounding box of the basemap, [world.boundary.total_bounds]. *)
Record bounds : Type := {
  minx : Q;
  miny : Q;
  maxx : Q;
  maxy : Q
}.


(** [x, y = zip( *coords)]: the coordinates transposed into two tuples;
    without coordinates [zip] yields nothing and the unpacking raises. *)
Definition unpack_xy (coords : list Point) : result (list Q * list Q) :=
  match coords with
  | [] => Raise (ValueError "not enough values to unpack (expected 2, got 0)")
  | _ :: _ => Ok (map fst coords, map snd coords)
  end.

(** Lines 184 to 186 of [generate_heatmap]: the raw histogram, latitude
    along the rows and longitude along the columns. *)
Definition raw_heatmap (df : list Point) (a : args) : result counts :=
  let coords := df in
  xy <- unpack_xy coords ;;
  let '(x, y) := xy in
  h <- histogram2d y x (bins a) ;;
  let '(heatmap, _, _) := h in
  Ok heatmap.

(** Lines 188 and 189: the grid that is handed to the Gaussian filter. *)
Definition log_transform (heatmap : counts) : loggrid :=
  let logheatmap := map (map np_log) heatmap in
  assign_where isneginf logheatmap.

(** What [overlay_heat_on_map] draws: the grid, stretched over the bounding
    box of the basemap ([extent=[minx, maxx, maxy, miny]]). *)
Record image : Type := {
  pixels : loggrid;
  extent : Q * Q * Q * Q
}.

Definition overlay_heat_on_map (world : bounds) (heat : loggrid) : image :=
  {| pixels := heat;
     extent := (minx world, maxx world, maxy world, miny world) |}.

Section Smoothing.

(** [scipy.ndimage.gaussian_filter(input, sigma, mode=mode)] *)
Variable gaussian_filter : loggrid -> Q -> string -> loggrid.

Definition generate_heatmap (df : list Point) (a : args) : result loggrid :=
  heatmap <- raw_heatmap df a ;;
  let logheatmap := log_transform heatmap in
  Ok (gaussian_filter logheatmap (smoothing a) (mode a)).

Definition main (csv : list lat_long) (world : bounds) (a : args)
  : result image :=
  let gdf := pandas_to_geopandas csv in
  heatmap <- generate_heatmap gdf a ;;
  Ok (overlay_heat_on_map world heatmap).

End Smoothing.

End Heatmap.

(** * Notions used to state the properties *)

(** ** Of techniques.py *)

Module TechniquesSpec.

Import Techniques.
Local Open Scope Z_scope.

(** Sum of a raw column over the input rows of one year. *)
Definition raw_sum (c : publication -> Z) (y : Z) (df : list publication) : Z :=
  fold_right Z.add 0 (map c (filter (fun p => Year p =? y) df)).

(** The years that index a grouped frame. *)
Definition keys (g : frame) : list Z := map fst g.

Definition ascending (g : frame) : Prop := StronglySorted Z.lt (keys g).

(** The row of a grouped frame at year [y]. *)
Fixpoint lookup (y : Z) (g : frame) : option techs :=
  match g with
  | [] => None
  | (y', v) :: g' => if y =? y' then Some v else lookup y g'
  end.

(** The group of year [y] after the rows [rows] have been added one by one
    to a group that started as [init]. *)
Fixpoint group_of (y : Z) (init : option techs) (rows : list (Z * techs))
  : option techs :=
  match rows with
  | [] => init
  | r :: rs =>
      group_of y
        (if y =? fst r
         then Some match init with
                   | Some w => techs_add w (snd r)
                   | None => snd r
                   end
         else init) rs
  end.

(** The values of a raw column in the input rows of one year, in the order
    of the input. *)
Definition raw_group (c : publication -> Z) (y : Z) (df : list publication)
  : list Z :=
  map c (filter (fun p => Year p =? y) df).

(** The sum of a group as int64 arithmetic gives it: the first value, to
    which the others are added one by one. *)
Definition wsum (l : list Z) : Z :=
  match l with
  | [] => 0
  | v :: l' => fold_left wadd l' v
  end.

(** The sum of a list of integers, without wrap-around. *)
Definition zsum (l : list Z) : Z := fold_right Z.add 0 l.

(** A value of int64. *)
Definition in_int64 (z : Z) : Prop := - 2 ^ 63 <= z < 2 ^ 63.

(** A publication as [read_csv] gives it, with int64 indicators. *)
Definition int64_pub (p : publication) : Prop :=
  in_int64 (Image_Processing p) /\ in_int64 (Machine_Learning p)
  /\ in_int64 (Deep_Learning p).

(** The reading of the aggregation under which every entry is the sum of the
    raw values of its year. *)
Definition entries_are_sums (df : list publication) : Prop :=
  forall y v, In (y, v) (format_df df) ->
    image_processing v = raw_sum Image_Processing y df /\
    machine_learning v = raw_sum Machine_Learning y df /\
    deep_learning v = raw_sum Deep_Learning y df.

(** Two publications of one year whose counts of image processing do not
    fit together in int64. *)
Definition two_large : list publication :=
  [ {| Year := 2020; Image_Processing := 2 ^ 62;
       Machine_Learning := 0; Deep_Learning := 0 |};
    {| Year := 2020; Image_Processing := 2 ^ 62;
       Machine_Learning := 0; Deep_Learning := 0 |} ].

(** The rows that enter the statistics, and the header line, for a given
    value of the year option. *)
Definition included (df : frame) (after : option Z) : frame :=
  match after with
  | Some y => index_ge y df
  | None => df
  end.

(** The line printed before the statistics when a minimum year is given. *)
Definition header (after : option Z) : list line :=
  match after with
  | Some y => [StatsAfter y]
  | None => []
  end.

(** The three lines of statistics. *)
Definition stats_lines (p_ip p_ml p_dl : float64) : list line :=
  [Stat "Percentage of papers that used Image Processing:" p_ip;
   Stat "Percentage of papers that used Machine Learning:" p_ml;
   Stat "Percentage of papers that used Deep Learning:" p_dl].

(** The share of one column in the sum of all cells, as a percentage. *)
Definition share (c : techs -> Z) (df : frame) : Q :=
  (inject_Z (column_sum c df) / inject_Z (frame_sum df) * 100)%Q.

(** The value that [print_stats] computes for one column. *)
Definition percent (c : techs -> Z) (df : frame) : float64 :=
  times (true_divide (column_sum c df) (frame_sum df)) 100.

(** The relative error allowed to a printed percentage: five units of
    roundoff, for the four roundings that produce it. *)
Definition tolerance : Q := 5 * u53.

(** The reading of the statistics under which the three printed values of a
    frame with a positive sum of cells always add up to 100, here up to one
    millionth. *)
Definition percentages_add_up (df : frame) : Prop :=
  0 < frame_sum df ->
  exists p_ip p_ml p_dl : Q,
    print_stats df None = stats_lines (fin p_ip) (fin p_ml) (fin p_dl) /\
    (Qabs (p_ip + p_ml + p_dl - 100) <= 1 # 1000000)%Q.

(** One year whose three sums fit in int64 but not their total, which wraps
    around to 5. *)
Definition large_year : frame :=
  [ (2020, {| image_processing := 2 ^ 63 - 1;
              machine_learning := 2 ^ 63 - 1;
              deep_learning := 7 |}) ].

(** The options of the script at their defaults, but for the minimum
    year. *)
Definition default_args (after : option Z) : args :=
  {| output := "figures";
     after_year_only := after;
     dpi := 300;
     fig_size := (10, 5);
     filename := "techniques";
     format := "png";
     legend_title := "Techniques";
     no_print_stats := false;
     no_show_legend := false;
     title := None;
     xlabel := "Year";
     ylabel := "Number of Papers" |}.

(** The two publications of the end-to-end example. *)
Definition example_csv : list publication :=
  [ {| Year := 2020; Image_Processing := 1;
       Machine_Learning := 0; Deep_Learning := 1 |};
    {| Year := 2021; Image_Processing := 0;
       Machine_Learning := 1; Deep_Learning := 1 |} ].

(** The reading of the year option under which it restricts the chart as
    well as the statistics. *)
Definition year_filter_on_chart_and_stats (csv : list publication) (Y : Z) : Prop :=
  exists r : run,
    main csv (default_args (Some Y)) = Ok r /\
    Forall (fun bar => Y <= fst bar) (bars (chart r)) /\
    stdout r
    = StatsAfter Y ::
      stats_lines (percent image_processing (index_ge Y (format_df csv)))
                  (percent machine_learning (index_ge Y (format_df csv)))
                  (percent deep_learning (index_ge Y (format_df csv))).

(** One publication before 2020 and one after. *)
Definition early_and_late : list publication :=
  [ {| Year := 2019; Image_Processing := 1;
       Machine_Learning := 0; Deep_Learning := 0 |};
    {| Year := 2021; Image_Processing := 0;
       Machine_Learning := 1; Deep_Learning := 1 |} ].

(** Sum of a raw column over all input rows. *)
Definition raw_total (c : publication -> Z) (df : list publication) : Z :=
  fold_right Z.add 0 (map c df).

(** The rows of one year in two frames, added up. *)
Definition merge_rows (a b : option techs) : option techs :=
  match a, b with
  | Some v, Some w => Some (techs_add v w)
  | Some v, None => Some v
  | None, _ => b
  end.

(** A column of the grouped frame, as a function of its rows. *)
Definition additive (c : techs -> Z) : Prop :=
  forall a b, c (techs_add a b) = wadd (c a) (c b).

End TechniquesSpec.

(** ** Of heatmap.py *)

Module HeatmapSpec.

Import Heatmap.
Local Open Scope nat_scope.

(** Sum of all cells of a grid of counts. *)
Definition cell_sum (h : counts) : nat :=
  fold_right Nat.add 0 (map (fold_right Nat.add 0) h).

(** Sum of [f] over the indices [l]. *)
Definition sum_over (l : list nat) (f : nat -> nat) : nat :=
  fold_right Nat.add 0 (map f l).

(** The bins that survive the removal of the outlier rows and columns. *)
Definition proper (n0 n1 : nat) (b0 b1 : nat) : bool :=
  (1 <=? b0) && (b0 <? 1 + n0) && ((1 <=? b1) && (b1 <? 1 + n1)).

(** A point is in the bin range when neither of its bin numbers is an
    outlier bin (latitude along the first axis, longitude along the second). *)
Definition in_bin_range (edges0 edges1 : list Q) (p : Point) : bool :=
  proper (List.length edges0 - 1) (List.length edges1 - 1)
         (bin_number edges0 (snd p)) (bin_number edges1 (fst p)).

(** A point as a sample of the histogram, latitude first. *)
Definition transpose (p : Point) : Q * Q := (snd p, fst p).

(** Two points, one of them north of the basemap below. *)
Definition two_points : list Point := [(0, 85); (10, 0)]%Q.

(** Two bins along each axis, the other options at their defaults. *)
Definition coarse : args :=
  {| bins := (2, 2)%Z; smoothing := (13 # 10)%Q; mode := "nearest" |}.


(** A basemap of land boundaries, which end south of the pole. *)
Definition land : bounds :=
  {| minx := (-180)%Q; miny := (-90)%Q; maxx := 180%Q; maxy := (836 # 10)%Q |}.

(** What the log grid holds for a cell of raw count [c]. *)
Definition log_of_count (c : nat) (v : logval) : Prop :=
  isneginf v = false /\
  (c = 0 -> v = real 0%R) /\
  (0 < c -> v = real (ln (INR c))).


(** The value of the log grid at a cell of raw count [c]: a real number that
    is not negative, and zero for the counts 0 and 1 alike. *)
Definition log_value_range (c : nat) (v : logval) : Prop :=
  exists r : R, v = real r /\ (0 <= r)%R /\ (r = 0%R <-> c <= 1).

(** The exception of numpy for a bin count below one. *)
Definition bins_error (b : Z * Z) : exn :=
  if (fst b <? 1)%Z
  then ValueError "`bins[0]` must be positive, when an integer"
  else ValueError "`bins[1]` must be positive, when an integer".

(** The edges that [histogram2d] computes for the values [vals] of one axis
    and the bin count [b]. *)
Definition data_edges (vals : list Q) (b : Z) : list Q :=
  linspace (fst (get_outer_edges vals)) (snd (get_outer_edges vals))
           (Z.to_nat b + 1).

End HeatmapSpec.

(** * Properties of the rounding *)

Module FloatFacts.

Local Open Scope Q_scope.

Lemma round_half_even_error (x : Q) :
  Qabs (inject_Z (round_half_even x) - x) <= 1 # 2.
Proof.
  unfold round_half_even.
  pose proof (Qfloor_le x) as Hlo. pose proof (Qlt_floor x) as Hhi.
  rewrite inject_Z_plus in Hhi.
  change (inject_Z 1) with 1 in Hhi.
  apply Qabs_Qle_condition.
  destruct (Qcompare_spec (x - inject_Z (Qfloor x)) (1 # 2)) as [E|E|E].
  - destruct (Z.even (Qfloor x)).
    + split; lra.
    + rewrite inject_Z_plus. change (inject_Z 1) with 1. split; lra.
  - split; lra.
  - rewrite inject_Z_plus. change (inject_Z 1) with 1. split; lra.
Qed.

Lemma two_power (z : Z) : (0 <= z)%Z -> 2 ^ z == inject_Z (2 ^ z).
Proof. intros H. now rewrite Zpower_Qpower. Qed.

Lemma two_power_pos (z : Z) : 0 < 2 ^ z.
Proof. apply Qpower_0_lt. reflexivity. Qed.

Lemma ilog2_le (q : Q) : 0 < q -> 2 ^ ilog2 q <= q.
Proof.
  intros Hq. unfold ilog2.
  destruct (Qle_bool (2 ^ (Z.log2 (Qnum q) - Z.log2 (Z.pos (Qden q)))) q) eqn:E.
  { now apply Qle_bool_iff. }
  clear E. destruct q as [n d]. simpl Qnum. simpl Qden.
  assert (0 < n)%Z as Hn.
  { unfold Qlt in Hq. simpl in Hq. lia. }
  pose proof (Z.log2_spec n Hn) as [Ha _].
  pose proof (Z.log2_spec (Z.pos d) (Pos2Z.is_pos d)) as [_ Hb].
  pose proof (Z.log2_nonneg n) as Na.
  pose proof (Z.log2_nonneg (Z.pos d)) as Nb.
  set (a := Z.log2 n) in *. set (b := Z.log2 (Z.pos d)) in *.
  replace (a - b - 1)%Z with (a - Z.succ b)%Z by lia.
  rewrite Qpower_minus by discriminate.
  rewrite (two_power a Na), (two_power (Z.succ b)) by lia.
  rewrite (Qmake_Qdiv n d).
  assert (0 < inject_Z (2 ^ Z.succ b)) as HB.
  { replace 0 with (inject_Z 0) by reflexivity. rewrite <- Zlt_Qlt. lia. }
  assert (0 < inject_Z (Z.pos d)) as HD.
  { replace 0 with (inject_Z 0) by reflexivity. rewrite <- Zlt_Qlt. lia. }
  apply Qle_shift_div_l; [exact HD|].
  unfold Qdiv. rewrite <- Qmult_assoc, (Qmult_comm (/ _)), Qmult_assoc.
  apply Qle_shift_div_r; [exact HB|].
  rewrite <- !inject_Z_mult, <- Zle_Qle. nia.
Qed.

(** Rounding changes a number by at most the unit roundoff, relatively. *)
Lemma rnd_error (q : Q) : Qabs (rnd q - q) <= Qabs q * u53.
Proof.
  unfold rnd. destruct (Qeq_bool q 0) eqn:E.
  { apply Qeq_bool_eq in E. rewrite E. unfold u53. cbn. discriminate. }
  apply Qeq_bool_neq in E.
  rewrite Qred_correct.
  assert (0 < Qabs q) as Hpos.
  { destruct (Qlt_le_dec 0 (Qabs q)) as [H|H]; [exact H|].
    exfalso. apply E. pose proof (Qabs_nonneg q) as N.
    assert (Qabs q == 0) as Z0 by lra.
    revert Z0. apply Qabs_case; intros; lra. }
  pose proof (ilog2_le (Qabs q) Hpos) as Hlog.
  set (e := (ilog2 (Qabs q) - 52)%Z) in *.
  replace (ilog2 (Qabs q)) with (e + 52)%Z in Hlog by (unfold e; lia).
  clearbody e.
  rewrite Qpower_plus in Hlog by discriminate.
  pose proof (two_power_pos e) as HP.
  assert (2 ^ 52 == 4503599627370496) as C52 by reflexivity.
  rewrite C52 in Hlog.
  set (P := 2 ^ e) in *.
  pose proof (round_half_even_error (q / P)) as Hr.
  set (m := inject_Z (round_half_even (q / P))) in *.
  assert (m * P - q == (m - q / P) * P) as Ed by (field; lra).
  rewrite Ed, Qabs_Qmult, (Qabs_pos P) by lra.
  assert (Qabs (m - q / P) * P <= (1 # 2) * P) as Hb.
  { apply Qmult_le_compat_r; [exact Hr|lra]. }
  unfold u53. clearbody P. clear Hr Ed Hpos.
  generalize dependent (Qabs (m - q / P)). intros b Hb.
  generalize dependent (Qabs q). intros a Ha. lra.
Qed.

Lemma within_rnd (q : Q) : within u53 (rnd q) q.
Proof. unfold within. rewrite Qmult_comm. apply rnd_error. Qed.

Lemma Qabs_bound (x : Q) : - Qabs x <= x <= Qabs x.
Proof. apply Qabs_Qle_condition. apply Qle_refl. Qed.

Lemma Qabs_diff (x y : Q) : Qabs x <= Qabs y + Qabs (x - y).
Proof.
  setoid_replace x with (y + (x - y)) at 1 by ring. apply Qabs_triangle.
Qed.

Lemma within_trans (k1 k2 x y z : Q) :
  0 <= k1 -> within k1 x y -> within k2 y z ->
  within (k1 + k2 + k1 * k2) x z.
Proof.
  unfold within. intros H1 Hxy Hyz.
  assert (Qabs (x - z) <= Qabs (x - y) + Qabs (y - z)) as T1.
  { setoid_replace (x - z) with ((x - y) + (y - z)) by ring.
    apply Qabs_triangle. }
  pose proof (Qabs_diff y z) as T2.
  assert (k1 * Qabs y <= k1 * (Qabs z + Qabs (y - z))) as M1.
  { rewrite !(Qmult_comm k1). now apply Qmult_le_compat_r. }
  assert (k1 * Qabs (y - z) <= k1 * (k2 * Qabs z)) as M2.
  { rewrite !(Qmult_comm k1). now apply Qmult_le_compat_r. }
  generalize dependent (Qabs (x - z)). generalize dependent (Qabs (x - y)).
  generalize dependent (Qabs (y - z)). generalize dependent (Qabs y).
  generalize dependent (Qabs z). intros. 
  setoid_replace ((k1 + k2 + k1 * k2) * q) with (k1 * q + k2 * q + k1 * (k2 * q))
    by ring.
  setoid_replace (k1 * (q + q1)) with (k1 * q + k1 * q1) in M1 by ring.
  lra.
Qed.

Lemma within_mult_r (k x y c : Q) :
  within k x y -> within k (x * c) (y * c).
Proof.
  unfold within. intros H.
  setoid_replace (x * c - y * c) with ((x - y) * c) by ring.
  rewrite !Qabs_Qmult, Qmult_assoc.
  apply Qmult_le_compat_r; [exact H|apply Qabs_nonneg].
Qed.

Lemma Qmult_le_mono (a b c d : Q) :
  0 <= a -> a <= b -> 0 <= c -> c <= d -> a * c <= b * d.
Proof.
  intros Ha Hab Hc Hcd.
  apply Qle_trans with (b * c).
  - now apply Qmult_le_compat_r.
  - rewrite !(Qmult_comm b). apply Qmult_le_compat_r; [exact Hcd|lra].
Qed.

(** The quotient of two rounded numbers, the denominator positive. *)
Lemma within_div (k A a T t : Q) :
  0 <= k -> k < 1 -> 0 < t ->
  within k A a -> within k T t ->
  within (2 * k / (1 - k)) (A / T) (a / t).
Proof.
  unfold within. intros Hk0 Hk1 Ht HA HT.
  rewrite (Qabs_pos t) in HT by lra.
  apply Qabs_Qle_condition in HT.
  assert (0 < T) as HTpos.
  { assert (k * t <= 1 * t) as M
      by (apply Qmult_le_compat_r; lra).
    assert (k * t < t \/ k * t == t) as [L|L].
    { destruct (Qlt_le_dec (k * t) t); [now left|right; lra]. }
    - lra.
    - exfalso. assert ((1 - k) * t == 0) as Z0 by lra.
      assert (0 < (1 - k) * t) as P0
        by (apply Qmult_lt_0_compat; lra).
      lra. }
  assert ((1 - k) * t <= T) as HTlow by lra.
  set (N := A * t - a * T).
  assert (Qabs N <= 2 * k * (Qabs a * t)) as HN.
  { unfold N.
    setoid_replace (A * t - a * T) with ((A - a) * t + - (a * (T - t))) by ring.
    eapply Qle_trans; [apply Qabs_triangle|].
    rewrite Qabs_opp, !Qabs_Qmult, (Qabs_pos t) by lra.
    assert (Qabs (A - a) * t <= k * Qabs a * t) as M1
      by (apply Qmult_le_compat_r; lra).
    assert (Qabs (T - t) <= k * t) as M2
      by (apply Qabs_Qle_condition; lra).
    assert (Qabs a * Qabs (T - t) <= Qabs a * (k * t)) as M3.
    { apply Qmult_le_mono; try apply Qabs_nonneg; try apply Qle_refl.
      exact M2. }
    setoid_replace (2 * k * (Qabs a * t))
      with (k * Qabs a * t + Qabs a * (k * t)) by ring.
    lra. }
  assert (A / T - a / t == N * / (T * t)) as EN.
  { unfold N. field. split; lra. }
  assert (0 < T * t) as HTt by (apply Qmult_lt_0_compat; lra).
  assert (0 < / (T * t)) as Hinv by (apply Qinv_lt_0_compat; exact HTt).
  assert (0 < / t) as Hinvt by (apply Qinv_lt_0_compat; exact Ht).
  rewrite EN, Qabs_Qmult, (Qabs_pos (/ (T * t))) by lra.
  unfold Qdiv at 2. rewrite Qabs_Qmult, (Qabs_pos (/ t)) by lra.
  set (K := 2 * k / (1 - k)).
  assert (K * (1 - k) == 2 * k) as EK by (unfold K; field; lra).
  assert (0 <= K) as HK.
  { unfold K. apply Qle_shift_div_l; lra. }
  assert (K * (Qabs a * / t) == (K * Qabs a * T) * / (T * t)) as ER
    by (field; split; lra).
  rewrite ER. apply Qmult_le_compat_r; [|lra].
  eapply Qle_trans; [exact HN|].
  assert (K * Qabs a * ((1 - k) * t) <= K * Qabs a * T) as M4.
  { apply Qmult_le_mono; try apply Qle_refl; try lra.
    - apply Qmult_le_0_compat; [exact HK|apply Qabs_nonneg].
    - apply Qmult_le_0_compat; lra. }
  setoid_replace (K * Qabs a * ((1 - k) * t))
    with ((K * (1 - k)) * (Qabs a * t)) in M4 by ring.
  rewrite EK in M4. exact M4.
Qed.

Lemma within_weaken (k k' x y : Q) :
  k <= k' -> within k x y -> within k' x y.
Proof.
  unfold within. intros Hk H. eapply Qle_trans; [exact H|].
  apply Qmult_le_compat_r; [exact Hk|apply Qabs_nonneg].
Qed.

(** The four roundings of [a / t * 100]: of [a], of [t], of the quotient and
    of the product. *)
Lemma percent_rounding (a t : Q) :
  0 < t ->
  within (5 * u53) (rnd (rnd (rnd a / rnd t) * 100)) (a / t * 100).
Proof.
  intros Ht.
  pose proof (within_div u53 (rnd a) a (rnd t) t) as Hd.
  assert (0 <= u53) as U0 by (unfold u53; lra).
  assert (u53 < 1) as U1 by (unfold u53; lra).
  specialize (Hd U0 U1 Ht (within_rnd a) (within_rnd t)).
  pose proof (within_trans _ _ _ _ _ U0
                (within_rnd (rnd a / rnd t)) Hd) as Hq.
  apply (within_mult_r _ _ _ 100) in Hq.
  pose proof (within_trans _ _ _ _ _ U0
                (within_rnd (rnd (rnd a / rnd t) * 100)) Hq) as Hp.
  eapply within_weaken; [|exact Hp].
  vm_compute. discriminate.
Qed.

End FloatFacts.

(** * Properties of techniques.py *)

Module TechniquesFacts.

Import Techniques TechniquesSpec.
Local Open Scope Z_scope.

(** ** Grouping by year *)

Lemma lookup_below (y : Z) (g : frame) :
  Forall (Z.lt y) (keys g) -> lookup y g = None.
Proof.
  induction g as [|[y' v'] g IH]; simpl; intros H; [reflexivity|].
  inversion H as [|? ? Hlt Hrest]; subst.
  destruct (Z.eqb_spec y y') as [->|_]; [lia|].
  now apply IH.
Qed.

Lemma keys_group_add (P : Z -> Prop) (y : Z) (v : techs) (g : frame) :
  P y -> Forall P (keys g) -> Forall P (keys (group_add y v g)).
Proof.
  intros Hy.
  induction g as [|[y' v'] g IH]; simpl; intros H.
  - repeat constructor; exact Hy.
  - inversion H as [|? ? Hy' Hrest]; subst.
    destruct (y <? y'); [|destruct (y =? y')]; simpl.
    + constructor; [exact Hy|constructor; assumption].
    + constructor; assumption.
    + constructor; [assumption|now apply IH].
Qed.

Lemma ascending_group_add (y : Z) (v : techs) (g : frame) :
  ascending g -> ascending (group_add y v g).
Proof.
  unfold ascending.
  induction g as [|[y' v'] g IH]; simpl; intros H.
  - repeat constructor.
  - inversion H as [|? ? Hs Hall]; subst.
    destruct (Z.ltb_spec y y') as [Hlt|Hge]; simpl.
    + constructor; [exact H|].
      constructor; [exact Hlt|].
      eapply Forall_impl; [|exact Hall]. simpl; intros; lia.
    + destruct (Z.eqb_spec y y') as [->|Hne]; simpl.
      * constructor; assumption.
      * constructor; [now apply IH|].
        apply (keys_group_add (Z.lt y')); [lia|exact Hall].
Qed.

Lemma lookup_group_add (k y : Z) (v : techs) (g : frame) :
  ascending g ->
  lookup k (group_add y v g) =
  if k =? y
  then Some match lookup y g with
            | Some w => techs_add w v
            | None => v
            end
  else lookup k g.
Proof.
  unfold ascending.
  induction g as [|[y' v'] g IH]; simpl; intros H.
  - destruct (k =? y); reflexivity.
  - inversion H as [|? ? Hs Hall]; subst.
    destruct (Z.ltb_spec y y') as [Hlt|Hge]; simpl.
    + destruct (Z.eqb_spec k y) as [->|Hk].
      * destruct (Z.eqb_spec y y') as [->|_]; [lia|].
        rewrite lookup_below; [reflexivity|].
        eapply Forall_impl; [|exact Hall]. simpl; intros; lia.
      * reflexivity.
    + destruct (Z.eqb_spec y y') as [->|Hne]; simpl.
      * destruct (Z.eqb_spec k y') as [->|Hk]; reflexivity.
      * destruct (Z.eqb_spec k y') as [->|Hk].
        -- destruct (Z.eqb_spec y' y) as [Heq|_]; [congruence|reflexivity].
        -- now apply IH.
Qed.

Lemma groupby_fold (y : Z) (rows : list (Z * techs)) :
  forall g : frame,
    ascending g ->
    let g' := fold_left (fun g r => group_add (fst r) (snd r) g) rows g in
    ascending g' /\ lookup y g' = group_of y (lookup y g) rows.
Proof.
  induction rows as [|r rs IH]; simpl; intros g Hg.
  - split; [exact Hg|reflexivity].
  - destruct (IH (group_add (fst r) (snd r) g)) as [Ha Hl].
    + now apply ascending_group_add.
    + split; [exact Ha|].
      rewrite Hl, lookup_group_add by exact Hg.
      destruct (y =? fst r) eqn:E; [|reflexivity].
      apply Z.eqb_eq in E; subst y. reflexivity.
Qed.

Lemma filter_nil_existsb (A : Type) (f : A -> bool) (l : list A) :
  existsb f l = false -> filter f l = [].
Proof.
  induction l as [|a l IH]; simpl; [reflexivity|].
  destruct (f a); simpl; [discriminate|exact IH].
Qed.

(** *** int64 arithmetic *)

Lemma wrap_in_int64 (z : Z) : in_int64 (wrap z).
Proof.
  unfold in_int64, wrap.
  pose proof (Z.mod_pos_bound (z + 2 ^ 63) (2 ^ 64) ltac:(lia)). lia.
Qed.

Lemma wrap_small (z : Z) : in_int64 z -> wrap z = z.
Proof.
  unfold in_int64, wrap. intros H. rewrite Z.mod_small; lia.
Qed.

Lemma wrap_add_l (a b : Z) : wrap (wrap a + b) = wrap (a + b).
Proof.
  unfold wrap. f_equal.
  replace ((a + 2 ^ 63) mod 2 ^ 64 - 2 ^ 63 + b + 2 ^ 63)
    with ((a + 2 ^ 63) mod 2 ^ 64 + b) by lia.
  rewrite Z.add_mod_idemp_l by lia. f_equal. lia.
Qed.

Lemma wrap_add_r (a b : Z) : wrap (a + wrap b) = wrap (a + b).
Proof. rewrite (Z.add_comm a (wrap b)), wrap_add_l. f_equal. lia. Qed.

Lemma wrap_wrap (z : Z) : wrap (wrap z) = wrap z.
Proof. apply wrap_small, wrap_in_int64. Qed.

Lemma wadd_comm (a b : Z) : wadd a b = wadd b a.
Proof. unfold wadd. f_equal. lia. Qed.

Lemma wadd_assoc (a b c : Z) : wadd (wadd a b) c = wadd a (wadd b c).
Proof. unfold wadd. rewrite wrap_add_l, wrap_add_r. f_equal. lia. Qed.

Lemma fold_wadd_wrap (l : list Z) :
  forall v : Z, wrap (fold_left wadd l v) = wrap (v + zsum l).
Proof.
  unfold zsum. induction l as [|x l IH]; simpl; intros v.
  - f_equal. lia.
  - rewrite IH. unfold wadd. rewrite wrap_add_l. f_equal. lia.
Qed.

Lemma wsum_wrap (l : list Z) : wrap (wsum l) = wrap (zsum l).
Proof.
  destruct l as [|v l]; [reflexivity|]. unfold wsum. apply fold_wadd_wrap.
Qed.

Lemma fold_wadd_in_int64 (l : list Z) :
  forall v : Z, in_int64 v -> in_int64 (fold_left wadd l v).
Proof.
  induction l as [|x l IH]; simpl; intros v Hv; [exact Hv|].
  apply IH. apply wrap_in_int64.
Qed.

(** On int64 values the accumulated sum is the true sum, wrapped. *)
Lemma wsum_int64 (l : list Z) :
  Forall in_int64 l -> wsum l = wrap (zsum l).
Proof.
  intros H. rewrite <- wsum_wrap. symmetry. apply wrap_small.
  destruct H as [|v l Hv Hl]; [unfold wsum, in_int64; lia|].
  unfold wsum. now apply fold_wadd_in_int64.
Qed.

(** *** The group of a year *)

Lemma group_of_Some (y : Z) (rows : list (Z * techs)) :
  forall w : techs,
    group_of y (Some w) rows
    = Some (fold_left techs_add
              (map snd (filter (fun r => y =? fst r) rows)) w).
Proof.
  induction rows as [|r rs IH]; simpl; intros w; [reflexivity|].
  destruct (y =? fst r); simpl; apply IH.
Qed.

Lemma group_of_None (y : Z) (rows : list (Z * techs)) :
  group_of y None rows
  = match filter (fun r => y =? fst r) rows with
    | [] => None
    | r :: rs => Some (fold_left techs_add (map snd rs) (snd r))
    end.
Proof.
  induction rows as [|r rs IH]; simpl; [reflexivity|].
  destruct (y =? fst r); simpl; [apply group_of_Some|exact IH].
Qed.

Lemma fold_techs_add_column (c : techs -> Z) (vs : list techs) :
  additive c ->
  forall v : techs,
    c (fold_left techs_add vs v) = fold_left wadd (map c vs) (c v).
Proof.
  intros Hc. induction vs as [|x vs IH]; simpl; intros v; [reflexivity|].
  now rewrite IH, Hc.
Qed.

Lemma additive_columns :
  additive image_processing /\ additive machine_learning
  /\ additive deep_learning.
Proof. repeat split. Qed.

Lemma filter_select_rename (y : Z) (df : list publication) :
  filter (fun r => y =? fst r) (map select_rename df)
  = map select_rename (filter (fun p => Year p =? y) df).
Proof.
  induction df as [|p df IH]; simpl; [reflexivity|].
  rewrite (Z.eqb_sym y (Year p)).
  destruct (Year p =? y); simpl; now rewrite IH.
Qed.

Lemma existsb_filter_nil (A : Type) (f : A -> bool) (l : list A) :
  existsb f l = match filter f l with [] => false | _ :: _ => true end.
Proof.
  induction l as [|a l IH]; simpl; [reflexivity|].
  destruct (f a); simpl; [reflexivity|exact IH].
Qed.

Lemma lookup_In (y : Z) (v : techs) (g : frame) :
  ascending g -> In (y, v) g -> lookup y g = Some v.
Proof.
  unfold ascending.
  induction g as [|[y' v'] g IH]; simpl; intros H Hin; [contradiction|].
  inversion H as [|? ? Hs Hall]; subst.
  destruct Hin as [Heq|Hin].
  - inversion Heq; subst. now rewrite Z.eqb_refl.
  - destruct (Z.eqb_spec y y') as [->|_]; [|now apply IH].
    exfalso. rewrite Forall_forall in Hall.
    specialize (Hall y' (in_map fst _ _ Hin)). simpl in Hall. lia.
Qed.

Lemma lookup_keys (y : Z) (g : frame) :
  In y (keys g) <-> lookup y g <> None.
Proof.
  induction g as [|[y' v'] g IH]; simpl.
  - split; [contradiction|congruence].
  - destruct (Z.eqb_spec y y') as [->|Hne].
    + split; [discriminate|auto].
    + rewrite <- IH. split; [intros [?|?]; [congruence|assumption]|auto].
Qed.

Lemma format_df_lookup (y : Z) (df : list publication) :
  ascending (format_df df) /\
  lookup y (format_df df) =
  if existsb (fun p => Year p =? y) df
  then Some {| image_processing := wsum (raw_group Image_Processing y df);
               machine_learning := wsum (raw_group Machine_Learning y df);
               deep_learning := wsum (raw_group Deep_Learning y df) |}
  else None.
Proof.
  unfold format_df, groupby_sum.
  destruct (groupby_fold y (map select_rename df) []) as [Ha Hl].
  { constructor. }
  split; [exact Ha|].
  rewrite Hl. simpl lookup. rewrite group_of_None, filter_select_rename.
  rewrite existsb_filter_nil. unfold raw_group.
  destruct (filter (fun p => Year p =? y) df) as [|p ps]; [reflexivity|].
  simpl map. f_equal.
  destruct additive_columns as [A1 [A2 A3]].
  set (t := fold_left techs_add (map snd (map select_rename ps))
                      (snd (select_rename p))).
  assert (image_processing t = wsum (Image_Processing p :: map Image_Processing ps))
    as E1.
  { unfold t. rewrite (fold_techs_add_column _ _ A1), !map_map. reflexivity. }
  assert (machine_learning t = wsum (Machine_Learning p :: map Machine_Learning ps))
    as E2.
  { unfold t. rewrite (fold_techs_add_column _ _ A2), !map_map. reflexivity. }
  assert (deep_learning t = wsum (Deep_Learning p :: map Deep_Learning ps))
    as E3.
  { unfold t. rewrite (fold_techs_add_column _ _ A3), !map_map. reflexivity. }
  rewrite <- E1, <- E2, <- E3. now destruct t.
Qed.

Lemma format_df_keys (y : Z) (df : list publication) :
  In y (keys (format_df df)) <-> In y (map Year df).
Proof.
  destruct (format_df_lookup y df) as [_ Hl].
  rewrite lookup_keys, Hl.
  destruct (existsb _ df) eqn:E.
  - split; [intros _|discriminate].
    apply existsb_exists in E as [p [Hp Hy]].
    apply Z.eqb_eq in Hy; subst y. now apply in_map.
  - split; [congruence|intros Hin].
    apply in_map_iff in Hin as [p [Hy Hp]].
    assert (existsb (fun p => Year p =? y) df = true) as E'.
    { apply existsb_exists. exists p. split; [exact Hp|now apply Z.eqb_eq]. }
    congruence.
Qed.

Lemma raw_group_int64 (y : Z) (df : list publication) :
  Forall int64_pub df ->
  Forall in_int64 (raw_group Image_Processing y df) /\
  Forall in_int64 (raw_group Machine_Learning y df) /\
  Forall in_int64 (raw_group Deep_Learning y df).
Proof.
  unfold raw_group. induction 1 as [|p df [H1 [H2 H3]] _ [I1 [I2 I3]]]; simpl.
  - repeat split; constructor.
  - destruct (Year p =? y); simpl; repeat split;
      try constructor; assumption.
Qed.

(** C5, as stated, fails: two publications of 2020 with 2^62 each in one
    column give the entry -2^63 for 2020, not the sum 2^63. *)
Lemma int64_sum_wraps : ~ entries_are_sums two_large.
Proof.
  intros H.
  destruct (H 2020 {| image_processing := - 2 ^ 63; machine_learning := 0;
                      deep_learning := 0 |}) as [E _].
  - vm_compute. left. reflexivity.
  - vm_compute in E. discriminate.
Qed.

(** C5, amended. For an input of int64 indicators, the grouped frame is
    indexed, in ascending order and without repetition, by exactly the years
    that occur in the input, and the entry of a year in each technique column
    is the sum of the raw column over the input rows of that year as int64
    arithmetic gives it: the sum reduced modulo 2^64 into the range of int64,
    which is the sum itself whenever that fits in int64. *)
Theorem format_df_sums_per_year (df : list publication) :
  Forall int64_pub df ->
  StronglySorted Z.lt (map fst (format_df df)) /\
  (forall y, In y (map fst (format_df df)) <-> In y (map Year df)) /\
  (forall y v, In (y, v) (format_df df) ->
     image_processing v = wrap (raw_sum Image_Processing y df) /\
     machine_learning v = wrap (raw_sum Machine_Learning y df) /\
     deep_learning v = wrap (raw_sum Deep_Learning y df) /\
     (in_int64 (raw_sum Image_Processing y df) ->
      image_processing v = raw_sum Image_Processing y df) /\
     (in_int64 (raw_sum Machine_Learning y df) ->
      machine_learning v = raw_sum Machine_Learning y df) /\
     (in_int64 (raw_sum Deep_Learning y df) ->
      deep_learning v = raw_sum Deep_Learning y df)).
Proof.
  intros Hdf.
  split; [exact (proj1 (format_df_lookup 0 df))|split].
  - intros y. apply format_df_keys.
  - intros y v Hin. destruct (format_df_lookup y df) as [Ha Hl].
    rewrite (lookup_In _ _ _ Ha Hin) in Hl.
    destruct (existsb _ df); [|discriminate].
    destruct (raw_group_int64 y df Hdf) as [I1 [I2 I3]].
    inversion Hl; subst; simpl.
    rewrite (wsum_int64 _ I1), (wsum_int64 _ I2), (wsum_int64 _ I3).
    change (zsum (raw_group Image_Processing y df))
      with (raw_sum Image_Processing y df).
    change (zsum (raw_group Machine_Learning y df))
      with (raw_sum Machine_Learning y df).
    change (zsum (raw_group Deep_Learning y df))
      with (raw_sum Deep_Learning y df).
    repeat split; try reflexivity; intros Hr; now apply wrap_small.
Qed.

Lemma format_df_sums_per_year_witness :
  StronglySorted Z.lt (map fst (format_df example_csv)) /\
  (forall y, In y (map fst (format_df example_csv))
             <-> In y (map Year example_csv)) /\
  (forall y v, In (y, v) (format_df example_csv) ->
     image_processing v = wrap (raw_sum Image_Processing y example_csv) /\
     machine_learning v = wrap (raw_sum Machine_Learning y example_csv) /\
     deep_learning v = wrap (raw_sum Deep_Learning y example_csv) /\
     (in_int64 (raw_sum Image_Processing y example_csv) ->
      image_processing v = raw_sum Image_Processing y example_csv) /\
     (in_int64 (raw_sum Machine_Learning y example_csv) ->
      machine_learning v = raw_sum Machine_Learning y example_csv) /\
     (in_int64 (raw_sum Deep_Learning y example_csv) ->
      deep_learning v = raw_sum Deep_Learning y example_csv)).
Proof.
  apply (format_df_sums_per_year example_csv).
  repeat constructor; unfold in_int64; simpl; lia.
Defined.

(** ** The statistics printer *)

Lemma print_stats_lines (df : frame) (after : option Z) :
  df <> [] ->
  print_stats df after =
  header after ++
  stats_lines (percent image_processing (included df after))
              (percent machine_learning (included df after))
              (percent deep_learning (included df after)).
Proof.
  intros Hne. destruct df as [|r df]; [congruence|].
  destruct after; reflexivity.
Qed.

Lemma print_stats_empty (after : option Z) :
  print_stats [] after
  = header after ++ [Uncaught (ZeroDivisionError "division by zero")].
Proof. destruct after; reflexivity. Qed.

Lemma format_df_nonempty (csv : list publication) :
  csv <> [] -> format_df csv <> [].
Proof.
  destruct csv as [|p csv]; [congruence|intros _ E].
  assert (In (Year p) (keys (format_df (p :: csv)))) as H
    by (apply format_df_keys; now left).
  rewrite E in H. exact H.
Qed.

Lemma main_ok (csv : list publication) (a : args) :
  csv <> [] ->
  exists fig : figure,
    generate_stacked_barchart (format_df csv) a = Ok fig /\
    bars fig = format_df csv /\
    main csv a
    = Ok {| chart := fig;
            stdout := if negb (no_print_stats a)
                      then print_stats (format_df csv) (after_year_only a)
                      else [] |}.
Proof.
  intros Hne. apply format_df_nonempty in Hne.
  unfold main, generate_stacked_barchart.
  destruct (format_df csv) as [|r g]; [congruence|].
  eexists. split; [reflexivity|split; reflexivity].
Qed.

Lemma index_ge_In (Y : Z) (df : frame) (r : Z * techs) :
  In r (index_ge Y df) <-> In r df /\ Y <= fst r.
Proof.
  unfold index_ge. rewrite filter_In. now rewrite Z.leb_le.
Qed.

Lemma index_ge_none (Y : Z) (df : frame) :
  (forall r, In r df -> fst r < Y) -> index_ge Y df = [].
Proof.
  unfold index_ge. induction df as [|r df IH]; simpl; intros H; [reflexivity|].
  destruct (Z.leb_spec Y (fst r)) as [Hle|_].
  - specialize (H r (or_introl eq_refl)). lia.
  - apply IH. intros r' Hr'. apply H. now right.
Qed.

Lemma percent_within (c : techs -> Z) (df : frame) :
  0 < frame_sum df ->
  exists p : Q, percent c df = fin p /\ within tolerance p (share c df).
Proof.
  intros Hpos. unfold percent, true_divide, share, tolerance.
  destruct (Z.eqb_spec (frame_sum df) 0) as [E|_]; [lia|].
  unfold times, float_of_int.
  assert (rnd (inject_Z 100) = 100%Q) as E100 by (vm_compute; reflexivity).
  rewrite E100. eexists. split; [reflexivity|].
  assert (0 < inject_Z (frame_sum df))%Q as Ht.
  { replace 0%Q with (inject_Z 0) by reflexivity. now rewrite <- Zlt_Qlt. }
  pose proof (FloatFacts.within_rnd (inject_Z (frame_sum df))) as Wt.
  pose proof (FloatFacts.percent_rounding
                (inject_Z (column_sum c df)) (inject_Z (frame_sum df)) Ht) as W.
  unfold within in *.
  set (T := rnd (inject_Z (frame_sum df))) in *.
  assert (0 < T)%Q as HT.
  { apply Qabs_Qle_condition in Wt. rewrite Qabs_pos in Wt by lra.
    unfold u53 in Wt. lra. }
  exact W.
Qed.

Lemma shares_sum (df : frame) :
  0 < frame_sum df ->
  frame_sum df
  = column_sum image_processing df + column_sum machine_learning df
    + column_sum deep_learning df ->
  (share image_processing df + share machine_learning df
   + share deep_learning df == 100)%Q.
Proof.
  intros Hpos Hsum. unfold share. rewrite Hsum in *.
  assert (0 < inject_Z (column_sum image_processing df
                        + column_sum machine_learning df
                        + column_sum deep_learning df))%Q as Hq.
  { replace 0%Q with (inject_Z 0) by reflexivity. now rewrite <- Zlt_Qlt. }
  rewrite !inject_Z_plus in *. field. lra.
Qed.

Lemma share_nonneg (c : techs -> Z) (df : frame) :
  0 < frame_sum df -> 0 <= column_sum c df -> (0 <= share c df)%Q.
Proof.
  intros Hpos Hc. unfold share.
  assert (0 < inject_Z (frame_sum df))%Q as Ht.
  { replace 0%Q with (inject_Z 0) by reflexivity. now rewrite <- Zlt_Qlt. }
  assert (0 <= inject_Z (column_sum c df))%Q as Ha.
  { replace 0%Q with (inject_Z 0) by reflexivity. now rewrite <- Zle_Qle. }
  assert (0 <= inject_Z (column_sum c df) / inject_Z (frame_sum df))%Q as Hq.
  { apply Qle_shift_div_l; [exact Ht|lra]. }
  lra.
Qed.

(** C6, as stated, fails: for one year whose three sums are 2^63 - 1,
    2^63 - 1 and 7, the sum of all cells wraps around to 5, which is positive,
    and the three printed values add up to far more than 100. *)
Lemma wrapped_total_breaks_percentages : ~ percentages_add_up large_year.
Proof.
  intros H. destruct H as [p1 [p2 [p3 [E B]]]].
  - vm_compute. reflexivity.
  - vm_compute in E. inversion E; subst. vm_compute in B. apply B. reflexivity.
Qed.

(** C6, amended. For a frame with rows whose included cells have a positive
    sum that int64 holds without wrap-around, each printed value is the share
    of its column sum in the sum of all cells, times 100, up to a relative
    error of five units of roundoff of binary64; the three values add up to
    100 up to that relative error on the absolute shares, and so up to
    100 times that error when no column sum is negative; in particular
    without a year filter. *)
Theorem print_stats_percentages (df : frame) (after : option Z) :
  df <> [] ->
  0 < frame_sum (included df after) ->
  frame_sum (included df after)
  = column_sum image_processing (included df after)
    + column_sum machine_learning (included df after)
    + column_sum deep_learning (included df after) ->
  exists p_ip p_ml p_dl : Q,
    print_stats df after
    = header after ++ stats_lines (fin p_ip) (fin p_ml) (fin p_dl) /\
    within tolerance p_ip (share image_processing (included df after)) /\
    within tolerance p_ml (share machine_learning (included df after)) /\
    within tolerance p_dl (share deep_learning (included df after)) /\
    (Qabs (p_ip + p_ml + p_dl - 100)
     <= tolerance * (Qabs (share image_processing (included df after))
                     + Qabs (share machine_learning (included df after))
                     + Qabs (share deep_learning (included df after))))%Q /\
    (0 <= column_sum image_processing (included df after) ->
     0 <= column_sum machine_learning (included df after) ->
     0 <= column_sum deep_learning (included df after) ->
     (Qabs (p_ip + p_ml + p_dl - 100) <= tolerance * 100)%Q).
Proof.
  intros Hne Hpos Hsum.
  destruct (percent_within image_processing _ Hpos) as [p1 [E1 W1]].
  destruct (percent_within machine_learning _ Hpos) as [p2 [E2 W2]].
  destruct (percent_within deep_learning _ Hpos) as [p3 [E3 W3]].
  pose proof (shares_sum _ Hpos Hsum) as S.
  exists p1, p2, p3.
  rewrite (print_stats_lines df after Hne), E1, E2, E3.
  split; [reflexivity|split; [exact W1|split; [exact W2|split; [exact W3|]]]].
  set (s1 := share image_processing (included df after)) in *.
  set (s2 := share machine_learning (included df after)) in *.
  set (s3 := share deep_learning (included df after)) in *.
  assert (Qabs (p1 + p2 + p3 - 100)
          <= tolerance * (Qabs s1 + Qabs s2 + Qabs s3))%Q as B.
  { unfold within in W1, W2, W3.
    setoid_replace (p1 + p2 + p3 - 100)%Q
      with ((p1 - s1) + ((p2 - s2) + (p3 - s3)))%Q by (rewrite <- S; ring).
    pose proof (Qabs_triangle (p1 - s1) ((p2 - s2) + (p3 - s3))) as T1.
    pose proof (Qabs_triangle (p2 - s2) (p3 - s3)) as T2.
    setoid_replace (tolerance * (Qabs s1 + Qabs s2 + Qabs s3))%Q
      with (tolerance * Qabs s1 + tolerance * Qabs s2
            + tolerance * Qabs s3)%Q by ring.
    lra. }
  split; [exact B|].
  intros N1 N2 N3.
  pose proof (share_nonneg image_processing _ Hpos N1) as P1.
  pose proof (share_nonneg machine_learning _ Hpos N2) as P2.
  pose proof (share_nonneg deep_learning _ Hpos N3) as P3.
  fold s1 in P1. fold s2 in P2. fold s3 in P3.
  rewrite (Qabs_pos s1), (Qabs_pos s2), (Qabs_pos s3) in B by assumption.
  setoid_replace (s1 + s2 + s3)%Q with 100%Q in B by exact S.
  exact B.
Qed.

Lemma print_stats_percentages_witness :
  exists p_ip p_ml p_dl : Q,
    print_stats (format_df example_csv) None
    = header None ++ stats_lines (fin p_ip) (fin p_ml) (fin p_dl) /\
    within tolerance p_ip
      (share image_processing (included (format_df example_csv) None)) /\
    within tolerance p_ml
      (share machine_learning (included (format_df example_csv) None)) /\
    within tolerance p_dl
      (share deep_learning (included (format_df example_csv) None)) /\
    (Qabs (p_ip + p_ml + p_dl - 100)
     <= tolerance
        * (Qabs (share image_processing (included (format_df example_csv) None))
           + Qabs (share machine_learning (included (format_df example_csv) None))
           + Qabs (share deep_learning (included (format_df example_csv) None))))%Q /\
    (0 <= column_sum image_processing (included (format_df example_csv) None) ->
     0 <= column_sum machine_learning (included (format_df example_csv) None) ->
     0 <= column_sum deep_learning (included (format_df example_csv) None) ->
     (Qabs (p_ip + p_ml + p_dl - 100) <= tolerance * 100)%Q).
Proof.
  apply (print_stats_percentages (format_df example_csv) None).
  - vm_compute. discriminate.
  - reflexivity.
  - reflexivity.
Defined.

(** C7. The end-to-end example: two publications, of 2020 and 2021, give the
    table 2020: (1, 0, 1), 2021: (0, 1, 1), the column sums 1, 1 and 2, and
    the percentages 25, 25 and 50. *)
Theorem end_to_end_example :
  format_df example_csv
  = [ (2020, {| image_processing := 1; machine_learning := 0;
                deep_learning := 1 |});
      (2021, {| image_processing := 0; machine_learning := 1;
                deep_learning := 1 |}) ] /\
  column_sum image_processing (format_df example_csv) = 1 /\
  column_sum machine_learning (format_df example_csv) = 1 /\
  column_sum deep_learning (format_df example_csv) = 2 /\
  print_stats (format_df example_csv) None
  = stats_lines (fin 25) (fin 25) (fin 50) /\
  exists r : run,
    main example_csv (default_args None) = Ok r /\
    stdout r = stats_lines (fin 25) (fin 25) (fin 50).
Proof.
  repeat split; try (vm_compute; reflexivity).
  eexists. split; vm_compute; reflexivity.
Qed.

(** C10. When no row enters the statistics (the frame is empty, or every year
    lies before the minimum year), the sum of all cells is zero and the
    printer, which has no guard, divides zero by zero: for a frame whose rows
    are all excluded it writes three [nan] lines, and for a frame without rows
    it ends in the [ZeroDivisionError] of Python; it reports no error of its
    own. *)
Theorem print_stats_no_rows (df : frame) (after : option Z) :
  df = [] \/ (exists Y, after = Some Y /\ forall r, In r df -> fst r < Y) ->
  frame_sum (included df after) = 0 /\
  (df <> [] ->
   print_stats df after
   = header after ++
     stats_lines (times (true_divide 0 (frame_sum (included df after))) 100)
                 (times (true_divide 0 (frame_sum (included df after))) 100)
                 (times (true_divide 0 (frame_sum (included df after))) 100)
   /\ print_stats df after = header after ++ stats_lines nan nan nan) /\
  (df = [] ->
   print_stats df after
   = header after ++ [Uncaught (ZeroDivisionError "division by zero")]).
Proof.
  intros H.
  assert (included df after = []) as E.
  { destruct H as [->|[Y [-> HY]]].
    - destruct after; reflexivity.
    - simpl. now apply index_ge_none. }
  split; [now rewrite E|split].
  - intros Hne. rewrite (print_stats_lines df after Hne), E.
    split; reflexivity.
  - intros ->. apply print_stats_empty.
Qed.

Lemma print_stats_no_rows_witness :
  frame_sum (included (format_df example_csv) (Some 2022)) = 0 /\
  (format_df example_csv <> [] ->
   print_stats (format_df example_csv) (Some 2022)
   = header (Some 2022) ++
     stats_lines
       (times (true_divide 0 (frame_sum (included (format_df example_csv) (Some 2022)))) 100)
       (times (true_divide 0 (frame_sum (included (format_df example_csv) (Some 2022)))) 100)
       (times (true_divide 0 (frame_sum (included (format_df example_csv) (Some 2022)))) 100)
   /\ print_stats (format_df example_csv) (Some 2022)
      = header (Some 2022) ++ stats_lines nan nan nan) /\
  (format_df example_csv = [] ->
   print_stats (format_df example_csv) (Some 2022)
   = header (Some 2022) ++ [Uncaught (ZeroDivisionError "division by zero")]).
Proof.
  apply (print_stats_no_rows (format_df example_csv) (Some 2022)).
  right. exists 2022. split; [reflexivity|].
  intros r Hr. vm_compute in Hr.
  destruct Hr as [<-|[<-|[]]]; simpl; lia.
Defined.

(** ** The year filter *)

(** C1, as stated, fails: with publications of 2019 and 2021 and the minimum
    year 2020, the chart still has the bar of 2019. *)
Lemma year_filter_leaves_chart_alone :
  ~ year_filter_on_chart_and_stats early_and_late 2020.
Proof.
  intros [r [E [Hbars _]]]. vm_compute in E. inversion E; subst r.
  simpl in Hbars.
  inversion Hbars as [|? ? Hle _]. apply Hle. reflexivity.
Qed.

(** C1, amended. For an input with at least one publication, the minimum year
    restricts the statistics only: the chart has a bar for every year of the
    input, and the printed values are those of the rows whose year is at or
    after the minimum, so that rows of earlier years have no influence on
    them. *)
Theorem year_filter_only_in_stats
  (csv : list publication) (a : args) (Y : Z) :
  csv <> [] ->
  after_year_only a = Some Y ->
  no_print_stats a = false ->
  exists r : run,
    main csv a = Ok r /\
    bars (chart r) = format_df csv /\
    (forall y, In y (map fst (bars (chart r))) <-> In y (map Year csv)) /\
    stdout r
    = StatsAfter Y ::
      stats_lines (percent image_processing (index_ge Y (format_df csv)))
                  (percent machine_learning (index_ge Y (format_df csv)))
                  (percent deep_learning (index_ge Y (format_df csv))) /\
    (forall r', In r' (index_ge Y (format_df csv)) <->
                In r' (format_df csv) /\ Y <= fst r') /\
    (forall csv', csv' <> [] ->
                  index_ge Y (format_df csv') = index_ge Y (format_df csv) ->
                  exists r', main csv' a = Ok r' /\ stdout r' = stdout r).
Proof.
  intros Hne HY Hp.
  assert (forall c, c <> [] ->
            exists r, main c a = Ok r /\ bars (chart r) = format_df c /\
              stdout r
              = StatsAfter Y ::
                stats_lines (percent image_processing (index_ge Y (format_df c)))
                            (percent machine_learning (index_ge Y (format_df c)))
                            (percent deep_learning (index_ge Y (format_df c))))
    as Hrun.
  { intros c Hc. destruct (main_ok c a Hc) as [fig [_ [Hb Hm]]].
    eexists. split; [exact Hm|]. split; [exact Hb|]. simpl.
    rewrite Hp, HY. simpl negb. cbv iota.
    now rewrite (print_stats_lines _ _ (format_df_nonempty c Hc)). }
  destruct (Hrun csv Hne) as [r [Hm [Hb Hs]]].
  exists r. split; [exact Hm|split; [exact Hb|split; [|split; [exact Hs|split]]]].
  - intros y. rewrite Hb. apply format_df_keys.
  - intros r'. apply index_ge_In.
  - intros csv' Hne' E. destruct (Hrun csv' Hne') as [r' [Hm' [_ Hs']]].
    exists r'. split; [exact Hm'|]. now rewrite Hs', Hs, E.
Qed.

Lemma year_filter_only_in_stats_witness :
  exists r : run,
    main early_and_late (default_args (Some 2020)) = Ok r /\
    bars (chart r) = format_df early_and_late /\
    (forall y, In y (map fst (bars (chart r)))
               <-> In y (map Year early_and_late)) /\
    stdout r
    = StatsAfter 2020 ::
      stats_lines
        (percent image_processing (index_ge 2020 (format_df early_and_late)))
        (percent machine_learning (index_ge 2020 (format_df early_and_late)))
        (percent deep_learning (index_ge 2020 (format_df early_and_late))) /\
    (forall r', In r' (index_ge 2020 (format_df early_and_late)) <->
                In r' (format_df early_and_late) /\ 2020 <= fst r') /\
    (forall csv', csv' <> [] ->
                  index_ge 2020 (format_df csv')
                  = index_ge 2020 (format_df early_and_late) ->
                  exists r', main csv' (default_args (Some 2020)) = Ok r'
                             /\ stdout r' = stdout r).
Proof.
  apply (year_filter_only_in_stats early_and_late (default_args (Some 2020)) 2020).
  - discriminate.
  - reflexivity.
  - reflexivity.
Defined.

End TechniquesFacts.
(** * Properties of heatmap.py *)

Module HeatmapFacts.

Import Heatmap HeatmapSpec.
Local Open Scope Q_scope.

(** ** Outer edges: minimum and maximum of the data *)

Lemma fold_Qmin_le (vs : list Q) :
  forall a : Q,
    fold_left Qmin vs a <= a /\
    (forall u, In u vs -> fold_left Qmin vs a <= u).
Proof.
  induction vs as [|v vs IH]; simpl; intros a.
  - split; [apply Qle_refl|contradiction].
  - destruct (IH (Qmin a v)) as [Ha Hin]. split.
    + eapply Qle_trans; [exact Ha|apply Q.le_min_l].
    + intros u [<-|Hu].
      * eapply Qle_trans; [exact Ha|apply Q.le_min_r].
      * now apply Hin.
Qed.

Lemma fold_Qmax_ge (vs : list Q) :
  forall a : Q,
    a <= fold_left Qmax vs a /\
    (forall u, In u vs -> u <= fold_left Qmax vs a).
Proof.
  induction vs as [|v vs IH]; simpl; intros a.
  - split; [apply Qle_refl|contradiction].
  - destruct (IH (Qmax a v)) as [Ha Hin]. split.
    + eapply Qle_trans; [apply Q.le_max_l|exact Ha].
    + intros u [<-|Hu].
      * eapply Qle_trans; [apply Q.le_max_r|exact Ha].
      * now apply Hin.
Qed.

(** The outer edges of non-empty data enclose every value and are apart. *)
Lemma get_outer_edges_encloses (a : list Q) (lo hi : Q) :
  a <> [] ->
  get_outer_edges a = (lo, hi) ->
  lo < hi /\ (forall v, In v a -> lo <= v <= hi).
Proof.
  destruct a as [|v0 vs]; [congruence|intros _].
  unfold get_outer_edges.
  destruct (fold_Qmin_le vs v0) as [Hmin0 Hmin].
  destruct (fold_Qmax_ge vs v0) as [Hmax0 Hmax].
  set (m := fold_left Qmin vs v0) in *.
  set (M := fold_left Qmax vs v0) in *.
  assert (forall v, In v (v0 :: vs) -> m <= v <= M) as Hall.
  { intros v [<-|Hv]; split; auto. }
  destruct (Qeq_bool m M) eqn:E; intros Heq; inversion Heq; subst; clear Heq.
  - apply Qeq_bool_eq in E. split.
    + lra.
    + intros v Hv. specialize (Hall v Hv). lra.
  - split; [|exact Hall].
    assert (~ m == M) as Hne by (now apply Qeq_bool_neq).
    assert (m <= M) as Hle by (eapply Qle_trans; eassumption).
    destruct (Qlt_le_dec m M) as [Hlt|Hge]; [exact Hlt|].
    exfalso. apply Hne. now apply Qle_antisym.
Qed.

(** ** Edges and bin numbers *)

Lemma linspace_length (lo hi : Q) (n : nat) :
  List.length (linspace lo hi (n + 1)) = (n + 1)%nat.
Proof.
  unfold linspace. replace (n + 1 - 1)%nat with n by lia.
  now rewrite length_app, length_map, length_seq.
Qed.

Lemma linspace_last (lo hi : Q) (num : nat) :
  last (linspace lo hi num) 0 = hi.
Proof. unfold linspace. apply last_last. Qed.

Lemma searchsorted_right_le_length (edges : list Q) (v : Q) :
  (searchsorted_right edges v <= List.length edges)%nat.
Proof.
  induction edges as [|e es IH]; simpl; [lia|].
  destruct (Qle_bool e v); lia.
Qed.

Lemma searchsorted_right_all (edges : list Q) (v : Q) :
  Forall (fun e => e <= v) edges ->
  searchsorted_right edges v = List.length edges.
Proof.
  induction 1 as [|e es He _ IH]; simpl; [reflexivity|].
  apply Qle_bool_iff in He. now rewrite He, IH.
Qed.

Lemma searchsorted_right_stops (l : list Q) (stop v : Q) :
  v < stop ->
  (searchsorted_right (l ++ [stop]) v <= List.length l)%nat.
Proof.
  intros Hlt. induction l as [|e es IH]; simpl.
  - destruct (Qle_bool stop v) eqn:E; [|lia].
    apply Qle_bool_iff in E. lra.
  - destruct (Qle_bool e v); lia.
Qed.

Lemma bin_number_le_length (edges : list Q) (v : Q) :
  (bin_number edges v <= List.length edges)%nat.
Proof.
  unfold bin_number.
  pose proof (searchsorted_right_le_length edges v).
  destruct (Qeq_bool v (last edges 0)); lia.
Qed.

Lemma inject_nat_le (k n : nat) :
  (k <= n)%nat -> inject_Z (Z.of_nat k) <= inject_Z (Z.of_nat n).
Proof. intros H. rewrite <- Zle_Qle. lia. Qed.

(** No inner edge of [linspace lo hi] lies above [hi]. *)
Lemma linspace_step_le (lo hi : Q) (k n : nat) :
  lo <= hi -> (k < n)%nat ->
  inject_Z (Z.of_nat k) * ((hi - lo) / inject_Z (Z.of_nat n)) + lo <= hi.
Proof.
  intros Hle Hk.
  set (qn := inject_Z (Z.of_nat n)).
  assert (0 < qn) as Hn.
  { unfold qn. replace 0 with (inject_Z 0) by reflexivity.
    rewrite <- Zlt_Qlt. lia. }
  set (step := (hi - lo) / qn).
  assert (0 <= step) as Hstep.
  { unfold step. apply Qle_shift_div_l; [exact Hn|]. lra. }
  assert (qn * step == hi - lo) as Hfull.
  { unfold step. apply Qmult_div_r. lra. }
  assert (inject_Z (Z.of_nat k) * step <= qn * step) as Hmul.
  { apply Qmult_le_compat_r; [|exact Hstep].
    apply inject_nat_le. lia. }
  lra.
Qed.

Lemma linspace_below_stop (lo hi : Q) (n : nat) :
  lo <= hi -> Forall (fun e => e <= hi) (linspace lo hi (n + 1)).
Proof.
  intros Hle. unfold linspace.
  replace (n + 1 - 1)%nat with n by lia.
  apply Forall_app. split.
  - apply Forall_forall. intros e He.
    apply in_map_iff in He as [k [<- Hk]].
    apply in_seq in Hk. apply linspace_step_le; [exact Hle|lia].
  - repeat constructor. apply Qle_refl.
Qed.

(** With edges spread over [lo, hi], every value of that interval has a
    proper bin number, between 1 and the number of bins. *)
Lemma bin_number_linspace (lo hi v : Q) (n : nat) :
  (1 <= n)%nat -> lo < hi -> lo <= v <= hi ->
  (1 <= bin_number (linspace lo hi (n + 1)) v <= n)%nat.
Proof.
  intros Hn Hlt [Hlo Hhi]. unfold bin_number.
  rewrite linspace_last.
  destruct (Qeq_bool v hi) eqn:E.
  - apply Qeq_bool_eq in E.
    rewrite searchsorted_right_all, linspace_length; [lia|].
    eapply Forall_impl; [|apply linspace_below_stop; lra].
    simpl. intros e He. lra.
  - assert (~ v == hi) as Hne by (now apply Qeq_bool_neq).
    assert (v < hi) as Hv.
    { destruct (Qlt_le_dec v hi) as [H|H]; [exact H|].
      exfalso. apply Hne. now apply Qle_antisym. }
    unfold linspace. replace (n + 1 - 1)%nat with n by lia.
    split.
    + destruct n as [|n']; [lia|]. simpl.
      destruct (Qle_bool _ v) eqn:E0; [lia|].
      assert (Qle_bool (inject_Z 0 * ((hi - lo) / inject_Z (Z.of_nat (S n'))) + lo) v
              = true) as Ht.
      { apply Qle_bool_iff.
        setoid_replace (inject_Z 0) with 0 by reflexivity. lra. }
      simpl in Ht. congruence.
    + pose proof (searchsorted_right_stops
                    (map (fun k => inject_Z (Z.of_nat k)
                                   * ((hi - lo) / inject_Z (Z.of_nat n)) + lo)
                         (seq 0 n)) hi v Hv) as H.
      rewrite length_map, length_seq in H. exact H.
Qed.

(** ** Counting cells *)

Local Open Scope nat_scope.

Lemma cell_sum_grid (F : nat -> nat -> nat) (rows cols : list nat) :
  cell_sum (map (fun i => map (fun j => F i j) cols) rows)
  = sum_over rows (fun i => sum_over cols (F i)).
Proof. unfold cell_sum, sum_over. now rewrite map_map. Qed.

Lemma sum_over_ext (l : list nat) (f g : nat -> nat) :
  (forall i, In i l -> f i = g i) -> sum_over l f = sum_over l g.
Proof.
  unfold sum_over. induction l as [|a l IH]; simpl; intros H; [reflexivity|].
  rewrite (H a) by now left. rewrite IH; [reflexivity|].
  intros i Hi. apply H. now right.
Qed.

Lemma sum_over_add (l : list nat) (f g : nat -> nat) :
  sum_over l (fun i => f i + g i) = sum_over l f + sum_over l g.
Proof.
  unfold sum_over. induction l as [|a l IH]; simpl; [reflexivity|].
  rewrite IH. lia.
Qed.

Lemma sum_over_zero (l : list nat) : sum_over l (fun _ => 0) = 0.
Proof. unfold sum_over. induction l; simpl; auto. Qed.

(** Over a range of indices, a term that is present at one index only. *)
Lemma sum_over_single (c k : nat) (n : nat) :
  forall a : nat,
    sum_over (seq a n) (fun j => if k =? j then c else 0)
    = if (a <=? k) && (k <? a + n) then c else 0.
Proof.
  unfold sum_over. induction n as [|n IH]; simpl; intros a.
  - destruct (Nat.leb_spec a k), (Nat.ltb_spec k (a + 0)); simpl; lia.
  - rewrite IH.
    destruct (Nat.eqb_spec k a), (Nat.leb_spec a k), (Nat.leb_spec (S a) k),
      (Nat.ltb_spec k (S a + n)), (Nat.ltb_spec k (a + S n)); simpl; lia.
Qed.

Lemma ravel_multi_index_inj (i j i' j' ncol : nat) :
  j < ncol -> j' < ncol ->
  ravel_multi_index i j ncol = ravel_multi_index i' j' ncol ->
  i = i' /\ j = j'.
Proof.
  unfold ravel_multi_index. intros Hj Hj' E.
  assert (i = i') as -> by nia.
  split; [reflexivity|lia].
Qed.

(** One sample is counted in one cell if its bin is proper, in none
    otherwise. *)
Lemma one_sample_cells (b0 b1 n0 n1 ncol : nat) :
  b1 < ncol -> n1 < ncol ->
  sum_over (seq 1 n0)
    (fun i => sum_over (seq 1 n1)
       (fun j => if Nat.eq_dec (ravel_multi_index b0 b1 ncol)
                               (ravel_multi_index i j ncol)
                 then 1 else 0))
  = if proper n0 n1 b0 b1 then 1 else 0.
Proof.
  intros Hb1 Hn1.
  rewrite (sum_over_ext _ _
             (fun i => if b0 =? i
                       then (if (1 <=? b1) && (b1 <? 1 + n1) then 1 else 0)
                       else 0)).
  - rewrite sum_over_single. unfold proper.
    destruct ((1 <=? b0) && (b0 <? 1 + n0)); reflexivity.
  - intros i _. destruct (Nat.eqb_spec b0 i) as [->|Hne].
    + transitivity (sum_over (seq 1 n1) (fun j => if b1 =? j then 1 else 0));
        [|apply sum_over_single].
      apply sum_over_ext. intros j Hj.
      apply in_seq in Hj.
      destruct (Nat.eq_dec _ _) as [E|E], (Nat.eqb_spec b1 j) as [E'|E'];
        try reflexivity.
      * apply ravel_multi_index_inj in E; [tauto|lia|lia].
      * subst. contradiction.
    + transitivity (sum_over (seq 1 n1) (fun _ => 0)); [|apply sum_over_zero].
      apply sum_over_ext. intros j Hj.
      apply in_seq in Hj.
      destruct (Nat.eq_dec _ _) as [E|E]; [|reflexivity].
      apply ravel_multi_index_inj in E; [tauto|lia|lia].
Qed.

(** The sum of all cells is the number of samples with a proper bin. *)
Lemma histogramdd_cell_sum (sample : list (Q * Q)) (edges0 edges1 : list Q) :
  cell_sum (histogramdd sample edges0 edges1)
  = List.length
      (filter (fun s => proper (List.length edges0 - 1) (List.length edges1 - 1)
                               (bin_number edges0 (fst s))
                               (bin_number edges1 (snd s)))
              sample).
Proof.
  unfold histogramdd. rewrite cell_sum_grid.
  replace (List.length edges0 + 1 - 2) with (List.length edges0 - 1) by lia.
  replace (List.length edges1 + 1 - 2) with (List.length edges1 - 1) by lia.
  induction sample as [|s sample IH]; simpl.
  - transitivity (sum_over (seq 1 (List.length edges0 - 1)) (fun _ => 0));
      [|apply sum_over_zero].
    apply sum_over_ext. intros i _. apply sum_over_zero.
  - rewrite (sum_over_ext _ _
      (fun i =>
         sum_over (seq 1 (List.length edges1 - 1))
           (fun j => if Nat.eq_dec
                          (ravel_multi_index (bin_number edges0 (fst s))
                             (bin_number edges1 (snd s))
                             (List.length edges1 + 1))
                          (ravel_multi_index i j (List.length edges1 + 1))
                     then 1 else 0)
         + sum_over (seq 1 (List.length edges1 - 1))
             (fun j => count_occ Nat.eq_dec
                (map (fun s0 => ravel_multi_index (bin_number edges0 (fst s0))
                                  (bin_number edges1 (snd s0))
                                  (List.length edges1 + 1)) sample)
                (ravel_multi_index i j (List.length edges1 + 1))))).
    + rewrite sum_over_add, IH, one_sample_cells.
      * destruct (proper _ _ _ _); simpl; lia.
      * pose proof (bin_number_le_length edges1 (snd s)). lia.
      * lia.
    + intros i _. rewrite <- sum_over_add. apply sum_over_ext. intros j _.
      destruct (Nat.eq_dec _ _); simpl; lia.
Qed.

(** ** The raw histogram of the script *)

Local Open Scope nat_scope.

Lemma combine_transpose (df : list Point) :
  combine (map snd df) (map fst df) = map transpose df.
Proof. induction df as [|p df IH]; simpl; [reflexivity|now rewrite IH]. Qed.

Lemma filter_map_length (A B : Type) (f : A -> B) (P : B -> bool) (l : list A) :
  List.length (filter P (map f l)) = List.length (filter (fun a => P (f a)) l).
Proof.
  induction l as [|a l IH]; simpl; [reflexivity|].
  destruct (P (f a)); simpl; now rewrite IH.
Qed.

Lemma filter_all (A : Type) (P : A -> bool) (l : list A) :
  (forall a, In a l -> P a = true) -> filter P l = l.
Proof.
  induction l as [|a l IH]; simpl; intros H; [reflexivity|].
  rewrite (H a) by now left. f_equal. apply IH. intros b Hb. apply H. now right.
Qed.

Lemma filter_split_length (A : Type) (P : A -> bool) (l : list A) :
  List.length l
  = List.length (filter P l) + List.length (filter (fun a => negb (P a)) l).
Proof.
  induction l as [|a l IH]; simpl; [reflexivity|].
  destruct (P a); simpl; lia.
Qed.

(** With at least one point and positive bin counts the histogram step
    succeeds, the edges span the data, and every point is in the bin range. *)
Lemma raw_heatmap_ok (df : list Point) (a : args) :
  df <> [] -> (1 <= fst (bins a))%Z -> (1 <= snd (bins a))%Z ->
  exists edges0 edges1 : list Q,
    histogram2d (map snd df) (map fst df) (bins a)
    = Ok (histogramdd (map transpose df) edges0 edges1, edges0, edges1) /\
    raw_heatmap df a = Ok (histogramdd (map transpose df) edges0 edges1) /\
    List.length edges0 = Z.to_nat (fst (bins a)) + 1 /\
    List.length edges1 = Z.to_nat (snd (bins a)) + 1 /\
    (forall p, In p df -> in_bin_range edges0 edges1 p = true).
Proof.
  intros Hne H0 H1.
  destruct (get_outer_edges (map snd df)) as [lo0 hi0] eqn:E0.
  destruct (get_outer_edges (map fst df)) as [lo1 hi1] eqn:E1.
  exists (linspace lo0 hi0 (Z.to_nat (fst (bins a)) + 1)),
         (linspace lo1 hi1 (Z.to_nat (snd (bins a)) + 1)).
  assert (histogram2d (map snd df) (map fst df) (bins a)
          = Ok (histogramdd (map transpose df)
                  (linspace lo0 hi0 (Z.to_nat (fst (bins a)) + 1))
                  (linspace lo1 hi1 (Z.to_nat (snd (bins a)) + 1)),
                linspace lo0 hi0 (Z.to_nat (fst (bins a)) + 1),
                linspace lo1 hi1 (Z.to_nat (snd (bins a)) + 1))) as Hh.
  { unfold histogram2d.
    rewrite !length_map, Nat.eqb_refl. simpl negb. cbv iota.
    destruct (Z.ltb_spec (fst (bins a)) 1) as [|_]; [lia|].
    destruct (Z.ltb_spec (snd (bins a)) 1) as [|_]; [lia|].
    now rewrite E0, E1, combine_transpose. }
  split; [exact Hh|split; [|split; [|split]]].
  - unfold raw_heatmap. destruct df as [|p df]; [congruence|].
    unfold unpack_xy, bind. now rewrite Hh.
  - apply linspace_length.
  - apply linspace_length.
  - intros p Hp. unfold in_bin_range, proper.
    rewrite !linspace_length.
    apply get_outer_edges_encloses in E0 as [Hlt0 Hin0];
      [|destruct df; [congruence|discriminate]].
    apply get_outer_edges_encloses in E1 as [Hlt1 Hin1];
      [|destruct df; [congruence|discriminate]].
    pose proof (bin_number_linspace lo0 hi0 (snd p) (Z.to_nat (fst (bins a))))
      as B0.
    pose proof (bin_number_linspace lo1 hi1 (fst p) (Z.to_nat (snd (bins a))))
      as B1.
    destruct B0 as [B0 B0']; [lia|exact Hlt0|apply Hin0; now apply in_map|].
    destruct B1 as [B1 B1']; [lia|exact Hlt1|apply Hin1; now apply in_map|].
    apply andb_true_iff; split; apply andb_true_iff; split;
      first [apply Nat.leb_le|apply Nat.ltb_lt]; lia.
Qed.

Lemma histogramdd_transpose_sum (df : list Point) (edges0 edges1 : list Q) :
  cell_sum (histogramdd (map transpose df) edges0 edges1)
  = List.length (filter (in_bin_range edges0 edges1) df).
Proof.
  rewrite histogramdd_cell_sum, filter_map_length. reflexivity.
Qed.

(** C3. For at least one input point (and positive bin counts) the histogram
    step succeeds; the sum of its cells is the number of points in the bin
    range, the others being dropped; and, the bin range being that of the
    data, this is the number of input rows. *)
Theorem histogram_counts_rows (df : list Point) (a : args) :
  df <> [] -> (1 <= fst (bins a))%Z -> (1 <= snd (bins a))%Z ->
  exists (heatmap : counts) (edges0 edges1 : list Q),
    histogram2d (map snd df) (map fst df) (bins a)
    = Ok (heatmap, edges0, edges1) /\
    raw_heatmap df a = Ok heatmap /\
    cell_sum heatmap = List.length (filter (in_bin_range edges0 edges1) df) /\
    cell_sum heatmap = List.length df.
Proof.
  intros Hne H0 H1.
  destruct (raw_heatmap_ok df a Hne H0 H1) as [e0 [e1 [Hh [Hr [_ [_ Hin]]]]]].
  exists (histogramdd (map transpose df) e0 e1), e0, e1.
  split; [exact Hh|split; [exact Hr|]].
  rewrite histogramdd_transpose_sum. split; [reflexivity|].
  now rewrite filter_all.
Qed.

Lemma histogram_counts_rows_witness :
  exists (heatmap : counts) (edges0 edges1 : list Q),
    histogram2d (map snd two_points) (map fst two_points) (bins coarse)
    = Ok (heatmap, edges0, edges1) /\
    raw_heatmap two_points coarse = Ok heatmap /\
    cell_sum heatmap
    = List.length (filter (in_bin_range edges0 edges1) two_points) /\
    cell_sum heatmap = List.length two_points.
Proof.
  apply (histogram_counts_rows two_points coarse).
  - discriminate.
  - simpl. lia.
  - simpl. lia.
Defined.

(** ** Points outside the basemap *)


Lemma nth_map_seq (A : Type) (F : nat -> A) (a n i : nat) (d : A) :
  i < n -> nth i (map F (seq a n)) d = F (a + i).
Proof.
  intros Hi.
  rewrite (nth_indep _ d (F 0)) by now rewrite length_map, length_seq.
  now rewrite map_nth, seq_nth.
Qed.

Lemma raw_heatmap_unfold (df : list Point) (a : args) :
  df <> [] -> (1 <= fst (bins a))%Z -> (1 <= snd (bins a))%Z ->
  raw_heatmap df a
  = Ok (histogramdd (map transpose df)
          (data_edges (map snd df) (fst (bins a)))
          (data_edges (map fst df) (snd (bins a)))).
Proof.
  intros Hne H0 H1. destruct df as [|p df]; [congruence|].
  unfold raw_heatmap, unpack_xy, bind, histogram2d, data_edges.
  rewrite !length_map, Nat.eqb_refl. simpl negb. cbv iota.
  destruct (Z.ltb_spec (fst (bins a)) 1) as [|_]; [lia|].
  destruct (Z.ltb_spec (snd (bins a)) 1) as [|_]; [lia|].
  destruct (get_outer_edges (map snd (p :: df))) as [lo0 hi0].
  destruct (get_outer_edges (map fst (p :: df))) as [lo1 hi1].
  now rewrite combine_transpose.
Qed.

Lemma fold_Qmin_In (vs : list Q) :
  forall a : Q, In (fold_left Qmin vs a) (a :: vs).
Proof.
  induction vs as [|v vs IH]; simpl; intros a; [now left|].
  destruct (IH (Qmin a v)) as [E|H].
  - rewrite <- E. unfold Qmin, GenericMinMax.gmin.
    destruct (a ?= v)%Q; auto.
  - right. now right.
Qed.

Lemma fold_Qmax_In (vs : list Q) :
  forall a : Q, In (fold_left Qmax vs a) (a :: vs).
Proof.
  induction vs as [|v vs IH]; simpl; intros a; [now left|].
  destruct (IH (Qmax a v)) as [E|H].
  - rewrite <- E. unfold Qmax, GenericMinMax.gmax.
    destruct (a ?= v)%Q; auto.
  - right. now right.
Qed.

Lemma fold_Qmin_lower (v : Q) (vs : list Q) (u : Q) :
  In u (v :: vs) -> (fold_left Qmin vs v <= u)%Q.
Proof.
  destruct (fold_Qmin_le vs v) as [H0 H].
  intros [<-|Hu]; [exact H0|now apply H].
Qed.

Lemma fold_Qmax_upper (v : Q) (vs : list Q) (u : Q) :
  In u (v :: vs) -> (u <= fold_left Qmax vs v)%Q.
Proof.
  destruct (fold_Qmax_ge vs v) as [H0 H].
  intros [<-|Hu]; [exact H0|now apply H].
Qed.

Lemma data_edges_length (vals : list Q) (b : Z) :
  List.length (data_edges vals b) = Z.to_nat b + 1.
Proof. apply linspace_length. Qed.

Lemma data_edges_bin (vals : list Q) (b : Z) (v : Q) :
  (1 <= b)%Z -> In v vals ->
  1 <= bin_number (data_edges vals b) v <= Z.to_nat b.
Proof.
  intros Hb Hv. unfold data_edges.
  destruct (get_outer_edges vals) as [lo hi] eqn:E.
  apply get_outer_edges_encloses in E as [Hlt Hin].
  - apply bin_number_linspace; [lia|exact Hlt|now apply Hin].
  - intros ->. contradiction.
Qed.

Lemma data_edges_in_range (df : list Point) (a : args) (p : Point) :
  (1 <= fst (bins a))%Z -> (1 <= snd (bins a))%Z -> In p df ->
  in_bin_range (data_edges (map snd df) (fst (bins a)))
               (data_edges (map fst df) (snd (bins a))) p = true.
Proof.
  intros H0 H1 Hp. unfold in_bin_range, proper.
  rewrite !data_edges_length.
  pose proof (data_edges_bin (map snd df) (fst (bins a)) (snd p) H0
                (in_map snd _ _ Hp)) as [B0 B0'].
  pose proof (data_edges_bin (map fst df) (snd (bins a)) (fst p) H1
                (in_map fst _ _ Hp)) as [B1 B1'].
  apply andb_true_iff; split; apply andb_true_iff; split;
    first [apply Nat.leb_le|apply Nat.ltb_lt]; lia.
Qed.

(** A point in the bin range is counted in the cell of its bin numbers. *)
Lemma point_cell (df : list Point) (edges0 edges1 : list Q) (p : Point) :
  In p df -> in_bin_range edges0 edges1 p = true ->
  1 <= nth (bin_number edges1 (fst p) - 1)
           (nth (bin_number edges0 (snd p) - 1)
                (histogramdd (map transpose df) edges0 edges1) []) 0.
Proof.
  intros Hp Hin. unfold in_bin_range, proper in Hin.
  apply andb_true_iff in Hin as [Hb0 Hb1].
  apply andb_true_iff in Hb0 as [Hb0 Hb0'].
  apply andb_true_iff in Hb1 as [Hb1 Hb1'].
  apply Nat.leb_le in Hb0, Hb1. apply Nat.ltb_lt in Hb0', Hb1'.
  unfold histogramdd.
  rewrite nth_map_seq by lia. rewrite nth_map_seq by lia.
  replace (1 + (bin_number edges0 (snd p) - 1))
    with (bin_number edges0 (snd p)) by lia.
  replace (1 + (bin_number edges1 (fst p) - 1))
    with (bin_number edges1 (fst p)) by lia.
  apply count_occ_In.
  apply in_map_iff. exists (transpose p). split; [reflexivity|].
  now apply in_map.
Qed.





(** ** The log transform *)

Lemma Forall2_map_r (A B : Type) (P : A -> B -> Prop) (f : A -> B) (l : list A) :
  (forall a, P a (f a)) -> Forall2 P l (map f l).
Proof. intros H. induction l; simpl; constructor; auto. Qed.

Lemma log_of_count_cell (c : nat) :
  log_of_count c (if isneginf (np_log c) then real 0%R else np_log c).
Proof.
  destruct c as [|c]; simpl; repeat split; try reflexivity; intros; lia.
Qed.

(** C4. In the grid handed to the Gaussian filter no cell is negative
    infinity: a cell of raw count 0 holds 0 and a cell of positive count holds
    the natural logarithm of the count. *)
Theorem log_transform_cells
  (gaussian_filter : loggrid -> Q -> string -> loggrid)
  (df : list Point) (a : args) :
  (forall heatmap : counts,
     Forall2 (Forall2 log_of_count) heatmap (log_transform heatmap)) /\
  generate_heatmap gaussian_filter df a
  = (heatmap <- raw_heatmap df a ;;
     Ok (gaussian_filter (log_transform heatmap) (smoothing a) (mode a))).
Proof.
  split; [|reflexivity].
  intros heatmap. unfold log_transform, assign_where.
  rewrite map_map. apply Forall2_map_r. intros row.
  rewrite map_map. apply Forall2_map_r. intros c.
  apply log_of_count_cell.
Qed.

(** ** Empty input *)

(** numpy itself accepts empty data: it bins over the range from 0 to 1. *)
Example histogram2d_empty :
  histogram2d [] [] (2, 2)%Z
  = Ok ([[0; 0]; [0; 0]], [0 # 2; 1 # 2; 1]%Q, [0 # 2; 1 # 2; 1]%Q).
Proof. vm_compute. reflexivity. Qed.

(** C8. Without any row the generation of the heatmap fails, and it fails in
    the histogram step: the unpacking of the coordinates raises, before the
    logarithm and the filter are reached. *)
Theorem empty_input_fails
  (gaussian_filter : loggrid -> Q -> string -> loggrid)
  (world : bounds) (a : args) :
  raw_heatmap [] a
  = Raise (ValueError "not enough values to unpack (expected 2, got 0)") /\
  generate_heatmap gaussian_filter [] a
  = Raise (ValueError "not enough values to unpack (expected 2, got 0)") /\
  main gaussian_filter [] world a
  = Raise (ValueError "not enough values to unpack (expected 2, got 0)").
Proof. repeat split. Qed.

End HeatmapFacts.

(** * Further properties of techniques.py *)

Module TechniquesMore.

Import Techniques TechniquesSpec TechniquesFacts.
Local Open Scope Z_scope.

(** ** Totals *)

Lemma column_sum_wrapped (c : techs -> Z) (g : frame) :
  wrap (column_sum c g) = column_sum c g.
Proof.
  unfold column_sum. destruct g as [|r g]; simpl; [reflexivity|].
  apply wrap_wrap.
Qed.

Lemma column_sum_group_add (c : techs -> Z) (y : Z) (v : techs) (g : frame) :
  additive c -> column_sum c (group_add y v g) = wadd (column_sum c g) (c v).
Proof.
  intros Hc. unfold column_sum.
  induction g as [|[y' v'] g IH]; simpl.
  - apply wadd_comm.
  - destruct (y <? y'); [|destruct (y =? y')]; simpl.
    + apply wadd_comm.
    + rewrite Hc, !wadd_assoc. f_equal. apply wadd_comm.
    + rewrite IH. now rewrite wadd_assoc.
Qed.

Lemma column_sum_fold (c : techs -> Z) (rows : list (Z * techs)) :
  additive c ->
  forall g : frame,
    column_sum c (fold_left (fun g r => group_add (fst r) (snd r) g) rows g)
    = wrap (column_sum c g + zsum (map (fun r => c (snd r)) rows)).
Proof.
  intros Hc. unfold zsum.
  induction rows as [|r rs IH]; simpl; intros g.
  - rewrite Z.add_0_r. symmetry. apply column_sum_wrapped.
  - rewrite IH, column_sum_group_add by exact Hc.
    unfold wadd. rewrite wrap_add_l. f_equal. lia.
Qed.

Lemma column_sum_format_df (c : techs -> Z) (df : list publication) :
  additive c ->
  column_sum c (format_df df)
  = wrap (raw_total (fun p => c (snd (select_rename p))) df).
Proof.
  intros Hc. unfold format_df, groupby_sum, raw_total.
  rewrite column_sum_fold by exact Hc.
  rewrite map_map. reflexivity.
Qed.

(** X1. Grouping by year moves counts between rows but loses none: each
    column of the grouped frame sums, in int64 arithmetic, to the total of
    the raw column over all publications reduced into the range of int64, and
    so to that total itself whenever it fits in int64. *)
Theorem format_df_preserves_totals (df : list publication) :
  column_sum image_processing (format_df df)
  = wrap (raw_total Image_Processing df) /\
  column_sum machine_learning (format_df df)
  = wrap (raw_total Machine_Learning df) /\
  column_sum deep_learning (format_df df)
  = wrap (raw_total Deep_Learning df) /\
  (in_int64 (raw_total Image_Processing df) ->
   column_sum image_processing (format_df df) = raw_total Image_Processing df) /\
  (in_int64 (raw_total Machine_Learning df) ->
   column_sum machine_learning (format_df df) = raw_total Machine_Learning df) /\
  (in_int64 (raw_total Deep_Learning df) ->
   column_sum deep_learning (format_df df) = raw_total Deep_Learning df).
Proof.
  destruct additive_columns as [H1 [H2 H3]].
  pose proof (column_sum_format_df image_processing df H1) as E1.
  pose proof (column_sum_format_df machine_learning df H2) as E2.
  pose proof (column_sum_format_df deep_learning df H3) as E3.
  simpl in E1, E2, E3.
  change (raw_total (fun p => Image_Processing p) df)
    with (raw_total Image_Processing df) in E1.
  change (raw_total (fun p => Machine_Learning p) df)
    with (raw_total Machine_Learning df) in E2.
  change (raw_total (fun p => Deep_Learning p) df)
    with (raw_total Deep_Learning df) in E3.
  repeat split; try assumption; intros Hr.
  - rewrite E1. now apply wrap_small.
  - rewrite E2. now apply wrap_small.
  - rewrite E3. now apply wrap_small.
Qed.

(** X2. Without a year filter the printed statistics of an input with at
    least one publication depend on the input only through the three column
    totals: how the publications are spread over the years plays no part. *)
Theorem stats_depend_on_totals (df df' : list publication) :
  df <> [] -> df' <> [] ->
  raw_total Image_Processing df = raw_total Image_Processing df' ->
  raw_total Machine_Learning df = raw_total Machine_Learning df' ->
  raw_total Deep_Learning df = raw_total Deep_Learning df' ->
  print_stats (format_df df) None = print_stats (format_df df') None.
Proof.
  intros Hne Hne' H1 H2 H3.
  destruct additive_columns as [A1 [A2 A3]].
  rewrite !print_stats_lines by now apply format_df_nonempty.
  unfold percent, frame_sum, included.
  rewrite !(column_sum_format_df image_processing) by exact A1.
  rewrite !(column_sum_format_df machine_learning) by exact A2.
  rewrite !(column_sum_format_df deep_learning) by exact A3.
  simpl.
  change (raw_total (fun p => Image_Processing p) df)
    with (raw_total Image_Processing df).
  change (raw_total (fun p => Machine_Learning p) df)
    with (raw_total Machine_Learning df).
  change (raw_total (fun p => Deep_Learning p) df)
    with (raw_total Deep_Learning df).
  change (raw_total (fun p => Image_Processing p) df')
    with (raw_total Image_Processing df').
  change (raw_total (fun p => Machine_Learning p) df')
    with (raw_total Machine_Learning df').
  change (raw_total (fun p => Deep_Learning p) df')
    with (raw_total Deep_Learning df').
  now rewrite H1, H2, H3.
Qed.

(** The two publications of the example, both dated 2020. *)
Lemma stats_depend_on_totals_witness :
  print_stats (format_df example_csv) None
  = print_stats
      (format_df
         [ {| Year := 2020; Image_Processing := 1;
              Machine_Learning := 0; Deep_Learning := 1 |};
           {| Year := 2020; Image_Processing := 0;
              Machine_Learning := 1; Deep_Learning := 1 |} ]) None.
Proof.
  apply (stats_depend_on_totals example_csv
           [ {| Year := 2020; Image_Processing := 1;
                Machine_Learning := 0; Deep_Learning := 1 |};
             {| Year := 2020; Image_Processing := 0;
                Machine_Learning := 1; Deep_Learning := 1 |} ]);
    try discriminate; reflexivity.
Defined.

(** ** Order of the input rows *)

Lemma ascending_tail (y : Z) (v : techs) (g : frame) :
  ascending ((y, v) :: g) -> ascending g /\ Forall (Z.lt y) (keys g).
Proof. intros H. inversion H; subst. split; assumption. Qed.

(** Two frames in ascending order with the same row at every year are the
    same frame. *)
Lemma ascending_ext (g : frame) :
  forall g' : frame,
    ascending g -> ascending g' ->
    (forall y, lookup y g = lookup y g') -> g = g'.
Proof.
  induction g as [|[y1 v1] t1 IH]; intros [|[y2 v2] t2] Ha Ha' Hl.
  - reflexivity.
  - specialize (Hl y2). simpl in Hl. rewrite Z.eqb_refl in Hl. discriminate.
  - specialize (Hl y1). simpl in Hl. rewrite Z.eqb_refl in Hl. discriminate.
  - apply ascending_tail in Ha as [Ha Hk], Ha' as [Ha' Hk'].
    assert (y1 = y2) as ->.
    { destruct (Z.lt_trichotomy y1 y2) as [Hlt|[Heq|Hgt]]; [|exact Heq|].
      - specialize (Hl y1). simpl in Hl. rewrite Z.eqb_refl in Hl.
        destruct (Z.eqb_spec y1 y2) as [|_]; [lia|].
        rewrite lookup_below in Hl; [discriminate|].
        eapply Forall_impl; [|exact Hk']. simpl; intros; lia.
      - specialize (Hl y2). simpl in Hl. rewrite Z.eqb_refl in Hl.
        destruct (Z.eqb_spec y2 y1) as [|_]; [lia|].
        rewrite lookup_below in Hl; [discriminate|].
        eapply Forall_impl; [|exact Hk]. simpl; intros; lia. }
    assert (v1 = v2) as ->.
    { specialize (Hl y2). simpl in Hl. rewrite Z.eqb_refl in Hl. congruence. }
    f_equal. apply IH; [exact Ha|exact Ha'|].
    intros y. specialize (Hl y). simpl in Hl.
    destruct (Z.eqb_spec y y2) as [E|_]; [subst y|exact Hl].
    now rewrite !lookup_below.
Qed.

Lemma zsum_Permutation (l l' : list Z) :
  Permutation l l' -> zsum l = zsum l'.
Proof.
  unfold zsum. induction 1; simpl; lia.
Qed.

Lemma wsum_two (a b : Z) (l : list Z) :
  wsum (a :: b :: l) = wrap (zsum (a :: b :: l)).
Proof.
  rewrite <- wsum_wrap. symmetry. apply wrap_small.
  unfold wsum. simpl. apply fold_wadd_in_int64, wrap_in_int64.
Qed.

Lemma wsum_Permutation (l l' : list Z) :
  Permutation l l' -> wsum l = wsum l'.
Proof.
  intros HP. pose proof (Permutation_length HP) as Hlen.
  destruct l as [|a [|b l]].
  - apply Permutation_nil in HP. now subst.
  - apply Permutation_length_1_inv in HP. now subst.
  - destruct l' as [|a' [|b' l']]; try discriminate.
    rewrite !wsum_two. f_equal. now apply zsum_Permutation.
Qed.

Lemma filter_Permutation (A : Type) (f : A -> bool) (l l' : list A) :
  Permutation l l' -> Permutation (filter f l) (filter f l').
Proof.
  induction 1 as [|a l l' _ IH|a b l|l l' l'' _ IH1 _ IH2]; simpl.
  - constructor.
  - destruct (f a); [now constructor|exact IH].
  - destruct (f a), (f b); try reflexivity. apply perm_swap.
  - now transitivity (filter f l').
Qed.

Lemma raw_group_Permutation (c : publication -> Z) (y : Z)
      (df df' : list publication) :
  Permutation df df' ->
  Permutation (raw_group c y df) (raw_group c y df').
Proof.
  intros HP. unfold raw_group. now apply Permutation_map, filter_Permutation.
Qed.

Lemma existsb_Permutation (A : Type) (f : A -> bool) (l l' : list A) :
  Permutation l l' -> existsb f l = existsb f l'.
Proof.
  induction 1 as [|a l l' _ IH|a b l|l l' l'' _ IH1 _ IH2]; simpl.
  - reflexivity.
  - now rewrite IH.
  - destruct (f a), (f b); reflexivity.
  - congruence.
Qed.

(** X3. The grouped frame does not depend on the order of the rows of the
    input: any rearrangement of the publications gives the same frame. *)
Theorem format_df_row_order (df df' : list publication) :
  Permutation df df' -> format_df df = format_df df'.
Proof.
  intros HP.
  apply ascending_ext.
  - exact (proj1 (format_df_lookup 0 df)).
  - exact (proj1 (format_df_lookup 0 df')).
  - intros y.
    rewrite (proj2 (format_df_lookup y df)), (proj2 (format_df_lookup y df')).
    rewrite (existsb_Permutation _ _ _ _ HP).
    rewrite (wsum_Permutation _ _ (raw_group_Permutation Image_Processing y _ _ HP)).
    rewrite (wsum_Permutation _ _ (raw_group_Permutation Machine_Learning y _ _ HP)).
    rewrite (wsum_Permutation _ _ (raw_group_Permutation Deep_Learning y _ _ HP)).
    reflexivity.
Qed.

Lemma format_df_row_order_witness :
  format_df example_csv = format_df (rev example_csv).
Proof.
  apply (format_df_row_order example_csv (rev example_csv)).
  apply perm_swap.
Defined.

(** ** Joining inputs *)

Lemma raw_group_app (c : publication -> Z) (y : Z) (df1 df2 : list publication) :
  raw_group c y (df1 ++ df2) = raw_group c y df1 ++ raw_group c y df2.
Proof. unfold raw_group. now rewrite filter_app, map_app. Qed.

Lemma raw_group_absent (c : publication -> Z) (y : Z) (df : list publication) :
  existsb (fun p => Year p =? y) df = false -> raw_group c y df = [].
Proof.
  intros H. unfold raw_group. now rewrite (filter_nil_existsb _ _ _ H).
Qed.

Lemma raw_group_present (c : publication -> Z) (y : Z) (df : list publication) :
  existsb (fun p => Year p =? y) df = true -> raw_group c y df <> [].
Proof.
  intros H. unfold raw_group. rewrite existsb_filter_nil in H.
  destruct (filter _ df); [discriminate|discriminate].
Qed.

(** The sum of two groups put one after the other. *)
Lemma wsum_app (l1 l2 : list Z) :
  l1 <> [] -> l2 <> [] -> wsum (l1 ++ l2) = wadd (wsum l1) (wsum l2).
Proof.
  destruct l1 as [|a t1]; [congruence|].
  destruct l2 as [|b t2]; [congruence|]. intros _ _.
  assert (in_int64 (wsum ((a :: t1) ++ b :: t2))) as Hin.
  { unfold wsum. simpl. rewrite fold_left_app. simpl.
    apply fold_wadd_in_int64, wrap_in_int64. }
  rewrite <- (wrap_small _ Hin), wsum_wrap.
  unfold wadd. rewrite <- wrap_add_l, <- wrap_add_r, !wsum_wrap.
  rewrite wrap_add_l, wrap_add_r. f_equal.
  unfold zsum. rewrite fold_right_app.
  generalize (fold_right Z.add 0 (b :: t2)). intros z. clear Hin.
  induction (a :: t1) as [|x l IH]; simpl; [lia|]. rewrite IH. lia.
Qed.

(** X4. Grouping the rows of two inputs put one after the other adds up, year
    by year, the frames of the two inputs: a year of both has the sum of the
    two rows, a year of one only keeps its row, a year of neither is absent. *)
Theorem format_df_app (df1 df2 : list publication) (y : Z) :
  lookup y (format_df (df1 ++ df2))
  = merge_rows (lookup y (format_df df1)) (lookup y (format_df df2)).
Proof.
  rewrite (proj2 (format_df_lookup y (df1 ++ df2))).
  rewrite (proj2 (format_df_lookup y df1)), (proj2 (format_df_lookup y df2)).
  rewrite existsb_app, !raw_group_app.
  destruct (existsb _ df1) eqn:E1, (existsb _ df2) eqn:E2; simpl.
  - unfold techs_add. simpl.
    rewrite !wsum_app by now apply raw_group_present. reflexivity.
  - rewrite !(raw_group_absent _ _ _ E2), !app_nil_r. reflexivity.
  - rewrite !(raw_group_absent _ _ _ E1). reflexivity.
  - reflexivity.
Qed.

(** ** The year filter on a grouped frame *)

Lemma index_ge_all (Y : Z) (df : frame) :
  (forall r, In r df -> Y <= fst r) -> index_ge Y df = df.
Proof.
  intros H. unfold index_ge. apply HeatmapFacts.filter_all.
  intros r Hr. apply Z.leb_le. now apply H.
Qed.

Lemma index_ge_suffix (Y : Z) (g : frame) :
  ascending g ->
  exists early : frame,
    g = early ++ index_ge Y g /\
    Forall (fun r => fst r < Y) early /\
    Forall (fun r => Y <= fst r) (index_ge Y g).
Proof.
  induction g as [|[y v] g IH]; intros Ha.
  - exists []. repeat split; constructor.
  - apply ascending_tail in Ha as [Ha Hk].
    destruct (Z.le_gt_cases Y y) as [Hle|Hgt].
    + exists []. rewrite index_ge_all.
      * split; [reflexivity|split; [constructor|]].
        constructor; [exact Hle|].
        apply Forall_forall. intros r Hr. rewrite Forall_forall in Hk.
        specialize (Hk (fst r) (in_map fst _ _ Hr)). simpl in Hk. lia.
      * intros r [<-|Hr]; [exact Hle|].
        rewrite Forall_forall in Hk.
        specialize (Hk (fst r) (in_map fst _ _ Hr)). simpl in Hk. lia.
    + destruct (IH Ha) as [early [E [He Hl]]].
      exists ((y, v) :: early). unfold index_ge in *. simpl.
      destruct (Z.leb_spec Y y) as [|_]; [lia|].
      split; [simpl; now rewrite <- E|split; [|exact Hl]].
      constructor; [exact Hgt|exact He].
Qed.

(** X5. The year filter cuts the grouped frame in two: the rows it removes
    are the first rows of the frame, all of years before the minimum, and the
    rows it keeps are the rest of the frame, in the same order. *)
Theorem year_filter_keeps_the_end (csv : list publication) (Y : Z) :
  exists early : frame,
    format_df csv = early ++ index_ge Y (format_df csv) /\
    Forall (fun r => fst r < Y) early /\
    Forall (fun r => Y <= fst r) (index_ge Y (format_df csv)).
Proof.
  apply index_ge_suffix. exact (proj1 (format_df_lookup 0 csv)).
Qed.

(** X6. A minimum year that no row of the frame lies before changes the
    output of the statistics printer by the header line alone. *)
Theorem early_minimum_year_only_adds_header (df : frame) (Y : Z) :
  (forall r, In r df -> Y <= fst r) ->
  print_stats df (Some Y) = StatsAfter Y :: print_stats df None.
Proof.
  intros H. destruct df as [|r df]; [reflexivity|].
  rewrite !print_stats_lines by discriminate. unfold included.
  now rewrite (index_ge_all Y (r :: df) H).
Qed.

Lemma early_minimum_year_only_adds_header_witness :
  print_stats (format_df example_csv) (Some 2020)
  = StatsAfter 2020 :: print_stats (format_df example_csv) None.
Proof.
  apply (early_minimum_year_only_adds_header (format_df example_csv) 2020).
  intros r Hr. vm_compute in Hr.
  destruct Hr as [<-|[<-|[]]]; simpl; lia.
Defined.

(** ** Size of the chart *)

Lemma ascending_NoDup (g : frame) : ascending g -> NoDup (keys g).
Proof.
  unfold ascending. induction 1 as [|y l _ IH Hall]; constructor.
  - intros Hin. rewrite Forall_forall in Hall. specialize (Hall y Hin). lia.
  - exact IH.
Qed.

(** X9. For an input with at least one publication the script draws a chart
    with one bar for each distinct year of the input; for an input without
    publications it draws none: the plot raises a [TypeError]. *)
Theorem one_bar_per_year (csv : list publication) (a : args) :
  match main csv a with
  | Ok r =>
      csv <> [] /\
      List.length (bars (chart r))
      = List.length (nodup Z.eq_dec (map Year csv))
  | Raise e => csv = [] /\ e = TypeError "no numeric data to plot"
  end.
Proof.
  destruct csv as [|p csv].
  - split; reflexivity.
  - destruct (main_ok (p :: csv) a) as [fig [_ [Hb Hm]]]; [discriminate|].
    rewrite Hm. split; [discriminate|]. simpl chart. rewrite Hb.
    rewrite <- (length_map fst (format_df (p :: csv))).
    apply Permutation_length, NoDup_Permutation.
    + apply ascending_NoDup. exact (proj1 (format_df_lookup 0 (p :: csv))).
    + apply NoDup_nodup.
    + intros y. rewrite nodup_In. apply format_df_keys.
Qed.

End TechniquesMore.

(** * Further properties of heatmap.py *)

Module HeatmapMore.

Import Heatmap HeatmapSpec HeatmapFacts.
Local Open Scope nat_scope.

(** ** Success and failure *)

Lemma raw_heatmap_inv (df : list Point) (a : args) (h : counts) :
  raw_heatmap df a = Ok h ->
  df <> [] /\ (1 <= fst (bins a))%Z /\ (1 <= snd (bins a))%Z.
Proof.
  intros H. destruct df as [|p df]; [discriminate|].
  split; [discriminate|].
  unfold raw_heatmap, unpack_xy, bind, histogram2d in H.
  rewrite !length_map, Nat.eqb_refl in H. simpl negb in H. cbv iota in H.
  destruct (Z.ltb_spec (fst (bins a)) 1) as [|H0]; [discriminate|].
  destruct (Z.ltb_spec (snd (bins a)) 1) as [|H1]; [discriminate|].
  split; assumption.
Qed.

Lemma raw_heatmap_bins_error (df : list Point) (a : args) :
  df <> [] ->
  (fst (bins a) < 1)%Z \/ (snd (bins a) < 1)%Z ->
  raw_heatmap df a = Raise (bins_error (bins a)).
Proof.
  intros Hne Hb. destruct df as [|p df]; [congruence|].
  unfold raw_heatmap, unpack_xy, bind, histogram2d, bins_error.
  rewrite !length_map, Nat.eqb_refl. simpl negb. cbv iota.
  destruct (Z.ltb_spec (fst (bins a)) 1) as [|H0]; [reflexivity|].
  destruct (Z.ltb_spec (snd (bins a)) 1) as [|H1]; [reflexivity|lia].
Qed.

Lemma pandas_to_geopandas_nil (csv : list lat_long) :
  pandas_to_geopandas csv = [] <-> csv = [].
Proof.
  unfold pandas_to_geopandas.
  destruct csv; simpl; split; intros H; try reflexivity; discriminate.
Qed.

(** X10. The histogram step, lines 184 to 186 of [generate_heatmap], yields a
    grid exactly when the input has at least one point and both bin counts
    are at least one. *)
Theorem raw_heatmap_succeeds_iff (df : list Point) (a : args) :
  (exists h, raw_heatmap df a = Ok h)
  <-> df <> [] /\ (1 <= fst (bins a))%Z /\ (1 <= snd (bins a))%Z.
Proof.
  split.
  - intros [h Hh]. exact (raw_heatmap_inv df a h Hh).
  - intros [Hne [H0 H1]].
    destruct (raw_heatmap_ok df a Hne H0 H1) as [e0 [e1 [_ [Hr _]]]].
    eexists. exact Hr.
Qed.

(** X11. With at least one row, a bin count below one makes the script fail
    with the exception that numpy raises for it, the one for the first count
    if both are below one. *)
Theorem nonpositive_bins_raise
  (gaussian_filter : loggrid -> Q -> string -> loggrid)
  (csv : list lat_long) (world : bounds) (a : args) :
  csv <> [] ->
  (fst (bins a) < 1)%Z \/ (snd (bins a) < 1)%Z ->
  main gaussian_filter csv world a = Raise (bins_error (bins a)).
Proof.
  intros Hne Hb.
  assert (pandas_to_geopandas csv <> []) as Hne'.
  { intros E. apply Hne. now apply pandas_to_geopandas_nil. }
  unfold main, generate_heatmap.
  now rewrite (raw_heatmap_bins_error _ a Hne' Hb).
Qed.

Lemma nonpositive_bins_raise_witness :
  main (fun g _ _ => g)
       [ {| Latitude_rounded := 85; Longitude_rounded := 0 |} ]%Q land
       {| bins := (0, 100)%Z; smoothing := (13 # 10)%Q; mode := "nearest" |}
  = Raise (bins_error (0, 100)%Z).
Proof.
  apply (nonpositive_bins_raise (fun g _ _ => g)
           [ {| Latitude_rounded := 85; Longitude_rounded := 0 |} ]%Q land
           {| bins := (0, 100)%Z; smoothing := (13 # 10)%Q; mode := "nearest" |}).
  - discriminate.
  - left. simpl. lia.
Defined.

(** ** Shape of the grids *)



(** ** Range of the log grid *)

Lemma log_value_range_cell (c : nat) :
  log_value_range c (if isneginf (np_log c) then real 0%R else np_log c).
Proof.
  unfold log_value_range.
  destruct c as [|[|c]].
  - exists 0%R. simpl. repeat split; auto using Rle_refl.
  - exists (ln (INR 1)). simpl. rewrite ln_1.
    repeat split; auto using Rle_refl.
  - exists (ln (INR (S (S c)))).
    assert (0 < ln (INR (S (S c))))%R as Hpos.
    { rewrite <- ln_1. apply ln_increasing; [exact Rlt_0_1|].
      apply lt_1_INR. lia. }
    split; [reflexivity|split; [now apply Rlt_le|]].
    split; [intros E|lia].
    rewrite E in Hpos. exfalso. exact (Rlt_irrefl _ Hpos).
Qed.

(** X13. No value handed to the Gaussian filter is negative, and a cell that
    holds a single point gets the same value, zero, as a cell that holds none:
    before smoothing only cells of two points or more stand out. *)
Theorem log_grid_range (heatmap : counts) :
  Forall2 (Forall2 log_value_range) heatmap (log_transform heatmap).
Proof.
  unfold log_transform, assign_where.
  rewrite map_map. apply Forall2_map_r. intros row.
  rewrite map_map. apply Forall2_map_r. intros c.
  apply log_value_range_cell.
Qed.

(** ** Order of the input rows *)

Lemma get_outer_edges_Permutation (vals vals' : list Q) :
  Permutation vals vals' ->
  (fst (get_outer_edges vals) == fst (get_outer_edges vals'))%Q /\
  (snd (get_outer_edges vals) == snd (get_outer_edges vals'))%Q.
Proof.
  intros HP.
  destruct vals as [|v vs].
  { apply Permutation_nil in HP. subst. split; reflexivity. }
  destruct vals' as [|v' vs'].
  { apply Permutation_sym, Permutation_nil in HP. discriminate. }
  unfold get_outer_edges.
  set (m := fold_left Qmin vs v). set (M := fold_left Qmax vs v).
  set (m' := fold_left Qmin vs' v'). set (M' := fold_left Qmax vs' v').
  assert (m == m')%Q as Hm.
  { apply Qle_antisym.
    - apply fold_Qmin_lower.
      apply (Permutation_in _ (Permutation_sym HP)), fold_Qmin_In.
    - apply fold_Qmin_lower.
      apply (Permutation_in _ HP), fold_Qmin_In. }
  assert (M == M')%Q as HM.
  { apply Qle_antisym.
    - apply fold_Qmax_upper.
      apply (Permutation_in _ HP), fold_Qmax_In.
    - apply fold_Qmax_upper.
      apply (Permutation_in _ (Permutation_sym HP)), fold_Qmax_In. }
  assert (Qeq_bool m M = Qeq_bool m' M') as Hb by now rewrite Hm, HM.
  rewrite <- Hb. destruct (Qeq_bool m M); simpl; split; lra.
Qed.

Lemma linspace_Qeq (lo hi lo' hi' : Q) (num : nat) :
  (lo == lo')%Q -> (hi == hi')%Q ->
  Forall2 Qeq (linspace lo hi num) (linspace lo' hi' num).
Proof.
  intros Hlo Hhi. unfold linspace. apply Forall2_app.
  - induction (seq 0 (num - 1)) as [|k l IH]; simpl; constructor.
    + now rewrite Hlo, Hhi.
    + exact IH.
  - constructor; [exact Hhi|constructor].
Qed.

Lemma searchsorted_right_Qeq (edges edges' : list Q) (v : Q) :
  Forall2 Qeq edges edges' ->
  searchsorted_right edges v = searchsorted_right edges' v.
Proof.
  induction 1 as [|e e' es es' He _ IH]; simpl; [reflexivity|].
  rewrite (Qleb_comp _ _ He _ _ (Qeq_refl v)), IH. reflexivity.
Qed.

Lemma last_Qeq (edges edges' : list Q) :
  Forall2 Qeq edges edges' -> (last edges 0 == last edges' 0)%Q.
Proof.
  induction 1 as [|e e' es es' He Hes IH]; simpl; [reflexivity|].
  destruct Hes; [exact He|exact IH].
Qed.

Lemma bin_number_Qeq (edges edges' : list Q) (v : Q) :
  Forall2 Qeq edges edges' -> bin_number edges v = bin_number edges' v.
Proof.
  intros H. unfold bin_number.
  rewrite (searchsorted_right_Qeq _ _ v H).
  now rewrite (Qeqb_comp _ _ (Qeq_refl v) _ _ (last_Qeq _ _ H)).
Qed.

Lemma histogramdd_Permutation
      (sample sample' : list (Q * Q)) (e0 e0' e1 e1' : list Q) :
  Permutation sample sample' ->
  Forall2 Qeq e0 e0' -> Forall2 Qeq e1 e1' ->
  histogramdd sample e0 e1 = histogramdd sample' e0' e1'.
Proof.
  intros HP H0 H1. unfold histogramdd.
  rewrite <- (Forall2_length H0), <- (Forall2_length H1).
  apply map_ext. intros i. apply map_ext. intros j.
  apply Permutation_count_occ.
  rewrite (map_ext
             (fun s => ravel_multi_index (bin_number e0 (fst s))
                         (bin_number e1 (snd s)) (List.length e1 + 1))
             (fun s => ravel_multi_index (bin_number e0' (fst s))
                         (bin_number e1' (snd s)) (List.length e1 + 1))).
  - now apply Permutation_map.
  - intros s. now rewrite (bin_number_Qeq _ _ _ H0), (bin_number_Qeq _ _ _ H1).
Qed.

Lemma data_edges_Permutation (vals vals' : list Q) (b : Z) :
  Permutation vals vals' ->
  Forall2 Qeq (data_edges vals b) (data_edges vals' b).
Proof.
  intros HP. destruct (get_outer_edges_Permutation _ _ HP) as [Hlo Hhi].
  unfold data_edges. now apply linspace_Qeq.
Qed.

Lemma raw_heatmap_Permutation (df df' : list Point) (a : args) :
  Permutation df df' -> raw_heatmap df a = raw_heatmap df' a.
Proof.
  intros HP.
  destruct df as [|p df].
  { apply Permutation_nil in HP. now subst. }
  destruct df' as [|p' df'].
  { apply Permutation_sym, Permutation_nil in HP. discriminate. }
  destruct (Z.le_gt_cases 1 (fst (bins a))) as [H0|H0];
    [destruct (Z.le_gt_cases 1 (snd (bins a))) as [H1|H1]|].
  - rewrite !raw_heatmap_unfold by (assumption || discriminate).
    f_equal. apply histogramdd_Permutation.
    + now apply Permutation_map.
    + apply data_edges_Permutation. now apply Permutation_map.
    + apply data_edges_Permutation. now apply Permutation_map.
  - rewrite !raw_heatmap_bins_error by (discriminate || (right; lia)).
    reflexivity.
  - rewrite !raw_heatmap_bins_error by (discriminate || (left; lia)).
    reflexivity.
Qed.

(** X14. The image does not depend on the order of the rows of the input:
    any rearrangement of the coordinates gives the same result, the same
    exception included. *)
Theorem main_row_order
  (gaussian_filter : loggrid -> Q -> string -> loggrid)
  (csv csv' : list lat_long) (world : bounds) (a : args) :
  Permutation csv csv' ->
  main gaussian_filter csv world a = main gaussian_filter csv' world a.
Proof.
  intros HP. unfold main, generate_heatmap.
  rewrite (raw_heatmap_Permutation (pandas_to_geopandas csv)
             (pandas_to_geopandas csv') a); [reflexivity|].
  unfold pandas_to_geopandas. now apply Permutation_map.
Qed.

Lemma main_row_order_witness :
  main (fun g _ _ => g)
       [ {| Latitude_rounded := 85; Longitude_rounded := 0 |};
         {| Latitude_rounded := 0; Longitude_rounded := 10 |} ]%Q land coarse
  = main (fun g _ _ => g)
       [ {| Latitude_rounded := 0; Longitude_rounded := 10 |};
         {| Latitude_rounded := 85; Longitude_rounded := 0 |} ]%Q land coarse.
Proof.
  apply (main_row_order (fun g _ _ => g)
           [ {| Latitude_rounded := 85; Longitude_rounded := 0 |};
             {| Latitude_rounded := 0; Longitude_rounded := 10 |} ]%Q
           [ {| Latitude_rounded := 0; Longitude_rounded := 10 |};
             {| Latitude_rounded := 85; Longitude_rounded := 0 |} ]%Q
           land coarse).
  apply perm_swap.
Defined.

(** ** The borders of the grid *)

Lemma searchsorted_right_first (e0 e1 : Q) (rest : list Q) (v : Q) :
  (e0 <= v)%Q -> (v < e1)%Q -> searchsorted_right (e0 :: e1 :: rest) v = 1.
Proof.
  intros H0 H1. simpl.
  apply Qle_bool_iff in H0. rewrite H0.
  destruct (Qle_bool e1 v) eqn:E; [|reflexivity].
  apply Qle_bool_iff in E. lra.
Qed.

(** The lowest value of the range falls in the first bin. *)
Lemma bin_number_first (lo hi v : Q) (n : nat) :
  1 <= n -> (lo < hi)%Q -> (v == lo)%Q ->
  bin_number (linspace lo hi (n + 1)) v = 1.
Proof.
  intros Hn Hlt Hv. unfold bin_number. rewrite linspace_last.
  destruct (Qeq_bool v hi) eqn:E.
  { apply Qeq_bool_eq in E. lra. }
  unfold linspace. replace (n + 1 - 1) with n by lia.
  assert (0 < inject_Z (Z.of_nat n))%Q as Hq.
  { replace 0%Q with (inject_Z 0) by reflexivity. rewrite <- Zlt_Qlt. lia. }
  assert (0 < (hi - lo) / inject_Z (Z.of_nat n))%Q as Hstep.
  { apply Qlt_shift_div_l; [exact Hq|]. lra. }
  remember ((hi - lo) / inject_Z (Z.of_nat n))%Q as step eqn:Es.
  destruct n as [|[|n]]; [lia| |]; cbn [seq map app].
  - apply searchsorted_right_first.
    + setoid_replace (inject_Z (Z.of_nat 0)) with 0%Q by reflexivity. lra.
    + lra.
  - apply searchsorted_right_first.
    + setoid_replace (inject_Z (Z.of_nat 0)) with 0%Q by reflexivity. lra.
    + setoid_replace (inject_Z (Z.of_nat 1)) with 1%Q by reflexivity. lra.
Qed.

(** The highest value of the range falls in the last bin, whose right edge
    is closed. *)
Lemma bin_number_last (lo hi v : Q) (n : nat) :
  1 <= n -> (lo < hi)%Q -> (v == hi)%Q ->
  bin_number (linspace lo hi (n + 1)) v = n.
Proof.
  intros Hn Hlt Hv. unfold bin_number. rewrite linspace_last.
  apply Qeq_bool_iff in Hv. rewrite Hv. apply Qeq_bool_iff in Hv.
  rewrite searchsorted_right_all, linspace_length; [lia|].
  eapply Forall_impl; [|apply (linspace_below_stop lo hi n); lra].
  simpl. intros e He. lra.
Qed.

(** Along an axis with two different values, the lowest value has the first
    bin number and the highest the last. *)
Lemma extremes_of_axis (vals : list Q) (b : Z) :
  (1 <= b)%Z ->
  (exists u w, In u vals /\ In w vals /\ ~ (u == w)%Q) ->
  exists vmin vmax,
    In vmin vals /\ In vmax vals /\
    bin_number (data_edges vals b) vmin = 1 /\
    bin_number (data_edges vals b) vmax = Z.to_nat b.
Proof.
  intros Hb [u [w [Hu [Hw Hne]]]].
  destruct vals as [|v vs]; [contradiction|].
  unfold data_edges, get_outer_edges.
  set (m := fold_left Qmin vs v). set (M := fold_left Qmax vs v).
  assert (m < M)%Q as Hlt.
  { pose proof (fold_Qmin_lower v vs u Hu). pose proof (fold_Qmin_lower v vs w Hw).
    pose proof (fold_Qmax_upper v vs u Hu). pose proof (fold_Qmax_upper v vs w Hw).
    fold m in H, H0. fold M in H1, H2.
    destruct (Qlt_le_dec m M) as [Hl|Hl]; [exact Hl|].
    exfalso. apply Hne. lra. }
  destruct (Qeq_bool m M) eqn:E.
  { apply Qeq_bool_eq in E. lra. }
  simpl fst. simpl snd.
  exists m, M. split; [apply fold_Qmin_In|split; [apply fold_Qmax_In|]].
  split.
  - apply bin_number_first; [lia|exact Hlt|reflexivity].
  - apply bin_number_last; [lia|exact Hlt|reflexivity].
Qed.

(** X15. The histogram is laid over the range of the data: when the points
    differ in latitude and in longitude, the first and the last row and the
    first and the last column of the raw histogram each hold a point, so that
    the grid which is stretched over the basemap reaches its four borders
    wherever the points lie. *)
Theorem histogram_reaches_borders (df : list Point) (a : args) :
  (1 <= fst (bins a))%Z -> (1 <= snd (bins a))%Z ->
  (exists p q, In p df /\ In q df /\ ~ (snd p == snd q)%Q) ->
  (exists p q, In p df /\ In q df /\ ~ (fst p == fst q)%Q) ->
  exists h : counts,
    raw_heatmap df a = Ok h /\
    (exists j, 1 <= nth j (nth 0 h []) 0) /\
    (exists j, 1 <= nth j (nth (Z.to_nat (fst (bins a)) - 1) h []) 0) /\
    (exists i, 1 <= nth 0 (nth i h []) 0) /\
    (exists i, 1 <= nth (Z.to_nat (snd (bins a)) - 1) (nth i h []) 0).
Proof.
  intros H0 H1 Hlat Hlon.
  assert (df <> []) as Hne.
  { destruct Hlat as [p [_ [Hp _]]]. intros ->. contradiction. }
  exists (histogramdd (map transpose df)
            (data_edges (map snd df) (fst (bins a)))
            (data_edges (map fst df) (snd (bins a)))).
  split; [now apply raw_heatmap_unfold|].
  destruct (extremes_of_axis (map snd df) (fst (bins a)) H0)
    as [ymin [ymax [Hymin [Hymax [Bmin Bmax]]]]].
  { destruct Hlat as [p [q [Hp [Hq Hd]]]].
    exists (snd p), (snd q). repeat split; try now apply in_map. exact Hd. }
  destruct (extremes_of_axis (map fst df) (snd (bins a)) H1)
    as [xmin [xmax [Hxmin [Hxmax [Cmin Cmax]]]]].
  { destruct Hlon as [p [q [Hp [Hq Hd]]]].
    exists (fst p), (fst q). repeat split; try now apply in_map. exact Hd. }
  apply in_map_iff in Hymin as [south [Es Hsouth]].
  apply in_map_iff in Hymax as [north [En Hnorth]].
  apply in_map_iff in Hxmin as [west [Ew Hwest]].
  apply in_map_iff in Hxmax as [east [Ee Heast]].
  subst ymin ymax xmin xmax.
  pose proof (point_cell df _ _ south Hsouth
                (data_edges_in_range df a south H0 H1 Hsouth)) as Ps.
  pose proof (point_cell df _ _ north Hnorth
                (data_edges_in_range df a north H0 H1 Hnorth)) as Pn.
  pose proof (point_cell df _ _ west Hwest
                (data_edges_in_range df a west H0 H1 Hwest)) as Pw.
  pose proof (point_cell df _ _ east Heast
                (data_edges_in_range df a east H0 H1 Heast)) as Pe.
  rewrite Bmin in Ps. rewrite Bmax in Pn.
  rewrite Cmin in Pw. rewrite Cmax in Pe.
  repeat split; eexists; eassumption.
Qed.

Lemma histogram_reaches_borders_witness :
  exists h : counts,
    raw_heatmap two_points coarse = Ok h /\
    (exists j, 1 <= nth j (nth 0 h []) 0) /\
    (exists j, 1 <= nth j (nth (Z.to_nat (fst (bins coarse)) - 1) h []) 0) /\
    (exists i, 1 <= nth 0 (nth i h []) 0) /\
    (exists i, 1 <= nth (Z.to_nat (snd (bins coarse)) - 1) (nth i h []) 0).
Proof.
  apply (histogram_reaches_borders two_points coarse).
  - simpl. lia.
  - simpl. lia.
  - exists (0, 85)%Q, (10, 0)%Q. simpl. repeat split; auto.
    intros H. vm_compute in H. discriminate.
  - exists (0, 85)%Q, (10, 0)%Q. simpl. repeat split; auto.
    intros H. vm_compute in H. discriminate.
Defined.



(** ** A single row *)

Lemma row_le_cell_sum (h : counts) (row : list nat) :
  In row h -> fold_right Nat.add 0 row <= cell_sum h.
Proof.
  unfold cell_sum. induction h as [|r h IH]; simpl; [contradiction|].
  intros [->|Hin]; [lia|]. specialize (IH Hin). lia.
Qed.

Lemma cell_le_row (row : list nat) (c : nat) :
  In c row -> c <= fold_right Nat.add 0 row.
Proof.
  induction row as [|d row IH]; simpl; [contradiction|].
  intros [->|Hin]; [lia|]. specialize (IH Hin). lia.
Qed.

Lemma log_cell_zero (c : nat) :
  c <= 1 -> (if isneginf (np_log c) then real 0%R else np_log c) = real 0%R.
Proof.
  intros Hc. destruct c as [|[|c]]; [reflexivity| |lia].
  simpl. now rewrite ln_1.
Qed.

(** X16. For an input of a single row the log grid is zero everywhere: the
    one cell that holds the point has count 1, whose logarithm is 0, so that
    the filter is given a blank grid. *)
Theorem single_row_gives_blank_grid (df : list Point) (a : args) :
  List.length df = 1 ->
  (1 <= fst (bins a))%Z -> (1 <= snd (bins a))%Z ->
  exists h : counts,
    raw_heatmap df a = Ok h /\
    cell_sum h = 1 /\
    Forall (Forall (fun v => v = real 0%R)) (log_transform h).
Proof.
  intros Hlen H0 H1.
  assert (df <> []) as Hne by (intros ->; discriminate).
  destruct (raw_heatmap_ok df a Hne H0 H1) as [e0 [e1 [_ [Hr [_ [_ Hin]]]]]].
  exists (histogramdd (map transpose df) e0 e1).
  assert (cell_sum (histogramdd (map transpose df) e0 e1) = 1) as Hsum.
  { rewrite histogramdd_transpose_sum, filter_all by exact Hin. exact Hlen. }
  split; [exact Hr|split; [exact Hsum|]].
  unfold log_transform, assign_where. rewrite map_map.
  apply Forall_forall. intros lrow Hl.
  apply in_map_iff in Hl as [row [<- Hrow]].
  rewrite map_map. apply Forall_forall. intros v Hv.
  apply in_map_iff in Hv as [c [<- Hc]].
  apply log_cell_zero.
  pose proof (row_le_cell_sum _ _ Hrow). pose proof (cell_le_row _ _ Hc). lia.
Qed.

Lemma single_row_gives_blank_grid_witness :
  exists h : counts,
    raw_heatmap [(0, 85)%Q] coarse = Ok h /\
    cell_sum h = 1 /\
    Forall (Forall (fun v => v = real 0%R)) (log_transform h).
Proof.
  apply (single_row_gives_blank_grid [(0, 85)%Q] coarse).
  - reflexivity.
  - simpl. lia.
  - simpl. lia.
Defined.

End HeatmapMore.
